(** * Sawtooth validator: the composition root [server/core.py]

    A shallow embedding of [sawtooth_validator.server.core.Validator]:
    the constructor that builds and wires the journal components, and the
    [start] / [stop] / [get_chain_head_state_root_hash] methods.

    The classes that [core.py] instantiates live in other modules; an
    object of such a class is represented by its identity, its class and
    the arguments it was constructed with, and every call into such a
    class is recorded as an event of the run. *)

From Stdlib Require Import ZArith String Ascii List Bool Lia.
From stdpp Require Import base option list strings gmap.

Open Scope string_scope.
Open Scope Z_scope.
Open Scope nat_scope.

(** ** Python values *)

(** The classes imported by core.py, plus [Validator] itself. *)
Inductive cls : Set :=
  | Validator
  | LMDBNoLockDatabase | StateViewFactory | StateDeltaStore
  | TransactionReceiptStore | BlockStore | BlockCache
  | InstrumentedThreadPoolExecutor | Dispatcher | Interconnect
  | ContextManager | BatchTracker | TransactionExecutor
  | SettingsViewFactory | StateDeltaProcessor | EventBroadcaster
  | Gossip | Completer | BroadcastBlockSender | BroadcastBatchSender
  | ChainIdManager | IdentityViewFactory | IdentityCache
  | PermissionVerifier | IdentityObserver | DefaultBatchInjectorFactory
  | BlockPublisher | BlockValidator | ChainController | GenesisController
  | Responder
  | Other (name : string).      (* a class core.py does not import *)

#[global] Instance cls_eq_dec : EqDecision cls.
Proof. solve_decision. Defined.

(** Object identities are allocation indices. *)
Abbreviation oid := nat.

#[local] Set Warnings "-register-all".
Inductive value : Type :=
  | VNone
  | VBool (b : bool)
  | VInt (n : Z)
  | VFloat (mantissa exp10 : Z)          (* a decimal literal m * 10^e *)
  | VStr (s : string)
  | VRef (o : oid)                       (* a reference to a heap object *)
  | VAttr (v : value) (name : string)    (* [v.name]: attribute or bound method *)
  | VGlobal (qualname : string)          (* a module-level name, e.g. network_handlers.add *)
  | VRet (k : nat)                       (* the value returned by the k-th event, a call *)
  | VList (vs : list value).

(** Python's [x is None]. *)
Definition is_none (v : value) : bool :=
  match v with VNone => true | _ => false end.

(** Python truthiness, for the values a collaborator may hand back. *)
Definition truthy (v : value) : bool :=
  match v with
  | VNone => false
  | VBool b => b
  | VInt n => negb (n =? 0)%Z
  | VFloat m _ => negb (m =? 0)%Z
  | VStr s => negb (String.length s =? 0)
  | VList vs => negb (length vs =? 0)
  | _ => true
  end.

(** An actual argument: positional or keyword. *)
Inductive arg : Type :=
  | Pos (v : value)
  | Kw (k : string) (v : value).

Fixpoint kwarg_of (k : string) (args : list arg) : option value :=
  match args with
  | [] => None
  | Kw k' v :: rest => if String.eqb k k' then Some v else kwarg_of k rest
  | Pos _ :: rest => kwarg_of k rest
  end.

(** A heap object: its class, the arguments of its constructor call and
    the attributes assigned to it by code under [core.py] ([__dict__]). *)
Record object := Object {
  o_class : cls;
  o_init : list arg;
  o_dict : gmap string value
}.

(** ** Events and the world *)

Inductive event : Type :=
  | ENew (o : oid) (c : cls) (args : list arg)   (* [c(args)] allocated object o *)
  | ECall (f : value) (args : list arg)          (* a call into code outside core.py *)
  | ELog (level : string) (fmt : string) (args : list value)
  | ESignal (signum : string)                    (* signal.signal(signum, handler) *)
  | EWait (timeout : Z)                          (* signal_event.wait(timeout=..) *)
  | EEnumerate (ts : list nat)                   (* threading.enumerate() *)
  | EIsAlive (t : nat) (b : bool)                (* t.is_alive() answered b *)
  | EJoin (t : nat)                              (* t.join() *)
  | ESleep (secs : Z)                            (* time.sleep(secs) *)
  | EGenesisCommitted.                           (* the genesis block was built and committed *)

Record world := World {
  heap : gmap nat object;
  next : oid;                 (* next free identity *)
  trace : list event;         (* everything that happened, oldest first *)
  clock : nat                 (* logical time: number of waits and sleeps so far *)
}.

(** ** The monad of Python statements *)

Inductive res (A : Type) : Type :=
  | Ret (a : A)
  | Raise (exn : string)     (* an exception propagated out *)
  | Starved.                 (* a loop bound of the model was exhausted: still running *)
Arguments Ret {A} a.
Arguments Raise {A} exn.
Arguments Starved {A}.

Definition M (A : Type) : Type := world -> res A * world.

#[global] Instance M_ret : MRet M := fun A a w => (Ret a, w).
#[global] Instance M_bind : MBind M := fun A B f m w =>
  match m w with
  | (Ret a, w') => f a w'
  | (Raise e, w') => (Raise e, w')
  | (Starved, w') => (Starved, w')
  end.

Definition raise {A} (e : string) : M A := fun w => (Raise e, w).
Definition starve {A} : M A := fun w => (Starved, w).

Definition emit (e : event) : M unit := fun w =>
  (Ret tt, {| heap := heap w; next := next w;
              trace := trace w ++ [e]; clock := clock w |}).

Definition tick : M unit := fun w =>
  (Ret tt, {| heap := heap w; next := next w;
              trace := trace w; clock := S (clock w) |}).

Definition now : M nat := fun w => (Ret (clock w), w).

(** [c(args)]: allocate a fresh object and record the construction. *)
Definition new (c : cls) (args : list arg) : M value := fun w =>
  let o := next w in
  (Ret (VRef o),
   {| heap := <[o := Object c args ∅]> (heap w); next := S o;
      trace := trace w ++ [ENew o c args]; clock := clock w |}).

(** A call into a collaborator: recorded, its result named after the
    position of the call in the trace. *)
Definition call (f : value) (args : list arg) : M value := fun w =>
  (Ret (VRet (length (trace w))),
   {| heap := heap w; next := next w;
      trace := trace w ++ [ECall f args]; clock := clock w |}).

(** [o.name(args)] *)
Definition invoke (o : value) (name : string) (args : list arg) : M value :=
  call (VAttr o name) args.

(** [self.name = v] on an object of the heap. *)
Definition setattr (self : oid) (name : string) (v : value) : M unit := fun w =>
  match heap w !! self with
  | Some ob =>
      (Ret tt,
       {| heap := <[self := Object (o_class ob) (o_init ob)
                              (<[name := v]> (o_dict ob))]> (heap w);
          next := next w; trace := trace w; clock := clock w |})
  | None => (Raise "AttributeError", w)
  end.

(** [self.name] read from the object's own dictionary. *)
Definition getattr (self : oid) (name : string) : M value := fun w =>
  match heap w !! self with
  | Some ob =>
      match o_dict ob !! name with
      | Some v => (Ret v, w)
      | None => (Raise "AttributeError", w)
      end
  | None => (Raise "AttributeError", w)
  end.

Definition debug (fmt : string) (args : list value) : M unit :=
  emit (ELog "debug" fmt args).
Definition info (fmt : string) (args : list value) : M unit :=
  emit (ELog "info" fmt args).

(** ** Strings used by the constructor *)

(** [s[-2:]] *)
Definition last2 (s : string) : string :=
  substring (String.length s - 2) 2 s.

Definition starts_with_sep (s : string) : bool :=
  match s with
  | String c _ => Ascii.eqb c "/"%char
  | EmptyString => false
  end.

Fixpoint ends_with_sep (s : string) : bool :=
  match s with
  | EmptyString => false
  | String c EmptyString => Ascii.eqb c "/"%char
  | String _ rest => ends_with_sep rest
  end.

(** [os.path.join(a, b)] on a POSIX system. *)
Definition os_path_join (a b : string) : string :=
  if starts_with_sep b then b
  else if (String.length a =? 0) || ends_with_sep a then a ++ b
  else a ++ "/" ++ b.

(** ['<prefix>-{}.lmdb'.format(bind_network[-2:])] under [data_dir]. *)
Definition db_filename (data_dir pre bind_network : string) : string :=
  os_path_join data_dir (pre ++ "-" ++ last2 bind_network ++ ".lmdb").

(** ** [Validator.__init__] *)

(** The formal parameters of the constructor. *)
Record init_args := InitArgs {
  bind_network : string;
  bind_component : string;
  endpoint : string;
  peering : string;
  seeds_list : list string;
  peer_list : list string;
  data_dir : string;
  config_dir : string;
  identity_signing_key : string;
  scheduler_type : string;
  permissions : value;
  network_public_key : value;      (* default None *)
  network_private_key : value;     (* default None *)
  roles : value;                   (* default None *)
  metrics_registry : value         (* default None *)
}.

(** What the constructor reads from outside the process:
    [hashlib.sha512(time.time().hex().encode()).hexdigest()] and
    [signing.generate_public_key]. *)
Record init_env := InitEnv {
  time_digest : string;
  generate_public_key : string -> string
}.

Definition str_list (l : list string) : value := VList (VStr <$> l).

Definition Validator_init (a : init_args) (e : init_env) (self : oid) : M unit :=
  (* -- Setup Global State Database and Factory -- *)
  let global_state_db_filename := db_filename (data_dir a) "merkle" (bind_network a) in
  debug "global state database file is %s" [VStr global_state_db_filename];;
  global_state_db ← new LMDBNoLockDatabase [Pos (VStr global_state_db_filename); Pos (VStr "c")];
  state_view_factory ← new StateViewFactory [Pos global_state_db];
  (* -- Setup State Delta Store -- *)
  let delta_db_filename := db_filename (data_dir a) "state-deltas" (bind_network a) in
  debug "state delta store file is %s" [VStr delta_db_filename];;
  state_delta_db ← new LMDBNoLockDatabase [Pos (VStr delta_db_filename); Pos (VStr "c")];
  state_delta_store ← new StateDeltaStore [Pos state_delta_db];
  (* -- Setup Receipt Store -- *)
  let receipt_db_filename := db_filename (data_dir a) "txn_receipts" (bind_network a) in
  debug "txn receipt store file is %s" [VStr receipt_db_filename];;
  receipt_db ← new LMDBNoLockDatabase [Pos (VStr receipt_db_filename); Pos (VStr "c")];
  receipt_store ← new TransactionReceiptStore [Pos receipt_db];
  (* -- Setup Block Store -- *)
  let block_db_filename := db_filename (data_dir a) "block" (bind_network a) in
  debug "block store file is %s" [VStr block_db_filename];;
  block_db ← new LMDBNoLockDatabase [Pos (VStr block_db_filename); Pos (VStr "c")];
  block_store ← new BlockStore [Pos block_db];
  block_cache ← new BlockCache
    [Pos block_store; Kw "keep_time" (VInt 300); Kw "purge_frequency" (VInt 30)];
  (* -- Setup Thread Pools -- *)
  component_thread_pool ← new InstrumentedThreadPoolExecutor
    [Kw "max_workers" (VInt 10); Kw "name" (VStr "Component")];
  network_thread_pool ← new InstrumentedThreadPoolExecutor
    [Kw "max_workers" (VInt 10); Kw "name" (VStr "Network")];
  sig_pool ← new InstrumentedThreadPoolExecutor
    [Kw "max_workers" (VInt 3); Kw "name" (VStr "Signature")];
  (* -- Setup Dispatchers -- *)
  component_dispatcher ← new Dispatcher [Kw "metrics_registry" (metrics_registry a)];
  network_dispatcher ← new Dispatcher [Kw "metrics_registry" (metrics_registry a)];
  (* -- Setup Services -- *)
  component_service ← new Interconnect
    [Pos (VStr (bind_component a));
     Pos component_dispatcher;
     Kw "secured" (VBool false);
     Kw "heartbeat" (VBool false);
     Kw "max_incoming_connections" (VInt 20);
     Kw "monitor" (VBool true);
     Kw "max_future_callback_workers" (VInt 10);
     Kw "metrics_registry" (metrics_registry a)];
  let zmq_identity := substring 0 23 (time_digest e) in
  let secure :=
    negb (is_none (network_public_key a)) && negb (is_none (network_private_key a)) in
  network_service ← new Interconnect
    [Pos (VStr (bind_network a));
     Kw "dispatcher" network_dispatcher;
     Kw "zmq_identity" (VStr zmq_identity);
     Kw "secured" (VBool secure);
     Kw "server_public_key" (network_public_key a);
     Kw "server_private_key" (network_private_key a);
     Kw "heartbeat" (VBool true);
     Kw "public_endpoint" (VStr (endpoint a));
     Kw "connection_timeout" (VInt 30);
     Kw "max_incoming_connections" (VInt 100);
     Kw "max_future_callback_workers" (VInt 10);
     Kw "authorize" (VBool true);
     Kw "public_key" (VStr (generate_public_key e (identity_signing_key a)));
     Kw "priv_key" (VStr (identity_signing_key a));
     Kw "roles" (roles a);
     Kw "metrics_registry" (metrics_registry a)];
  (* -- Setup Transaction Execution Platform -- *)
  context_manager ← new ContextManager [Pos global_state_db; Pos state_delta_store];
  batch_tracker ← new BatchTracker [Pos block_store];
  settings_view_factory ← new SettingsViewFactory [Pos state_view_factory];
  executor ← new TransactionExecutor
    [Kw "service" component_service;
     Kw "context_manager" context_manager;
     Kw "settings_view_factory" settings_view_factory;
     Kw "scheduler_type" (VStr (scheduler_type a));
     Kw "invalid_observers" (VList [batch_tracker]);
     Kw "metrics_registry" (metrics_registry a)];
  invoke component_service "set_check_connections"
    [Pos (VAttr executor "check_connections")];;
  state_delta_processor ← new StateDeltaProcessor
    [Pos component_service; Pos state_delta_store; Pos block_store];
  event_broadcaster ← new EventBroadcaster
    [Pos component_service; Pos block_store; Pos receipt_store];
  (* -- Setup P2P Networking -- *)
  gossip ← new Gossip
    [Pos network_service;
     Kw "endpoint" (VStr (endpoint a));
     Kw "peering_mode" (VStr (peering a));
     Kw "initial_seed_endpoints" (str_list (seeds_list a));
     Kw "initial_peer_endpoints" (str_list (peer_list a));
     Kw "minimum_peer_connectivity" (VInt 3);
     Kw "maximum_peer_connectivity" (VInt 10);
     Kw "topology_check_frequency" (VInt 1)];
  completer ← new Completer [Pos block_store; Pos gossip];
  block_sender ← new BroadcastBlockSender [Pos completer; Pos gossip];
  batch_sender ← new BroadcastBatchSender [Pos completer; Pos gossip];
  chain_id_manager ← new ChainIdManager [Pos (VStr (data_dir a))];
  state_view_factory2 ← new StateViewFactory [Pos global_state_db];
  identity_view_factory ← new IdentityViewFactory [Pos state_view_factory2];
  id_cache ← new IdentityCache
    [Pos identity_view_factory; Pos (VAttr block_store "chain_head_state_root")];
  (* -- Setup Permissioning -- *)
  permission_verifier ← new PermissionVerifier
    [Pos (permissions a);
     Pos (VAttr block_store "chain_head_state_root");
     Pos id_cache];
  identity_observer ← new IdentityObserver
    [Kw "to_update" (VAttr id_cache "invalidate");
     Kw "forked" (VAttr id_cache "forked")];
  (* -- Setup Journal -- *)
  batch_injector_factory ← new DefaultBatchInjectorFactory
    [Kw "block_store" block_store;
     Kw "state_view_factory" state_view_factory;
     Kw "signing_key" (VStr (identity_signing_key a))];
  squash_handler ← invoke context_manager "get_squash_handler" [];
  block_publisher ← new BlockPublisher
    [Kw "transaction_executor" executor;
     Kw "block_cache" block_cache;
     Kw "state_view_factory" state_view_factory;
     Kw "block_sender" block_sender;
     Kw "batch_sender" batch_sender;
     Kw "squash_handler" squash_handler;
     Kw "chain_head" (VAttr block_store "chain_head");
     Kw "identity_signing_key" (VStr (identity_signing_key a));
     Kw "data_dir" (VStr (data_dir a));
     Kw "config_dir" (VStr (config_dir a));
     Kw "permission_verifier" permission_verifier;
     Kw "check_publish_block_frequency" (VFloat 1 (-1));
     Kw "batch_observers" (VList [batch_tracker]);
     Kw "batch_injector_factory" batch_injector_factory;
     Kw "metrics_registry" (metrics_registry a)];
  squash_handler2 ← invoke context_manager "get_squash_handler" [];
  block_validator ← new BlockValidator
    [Kw "block_cache" block_cache;
     Kw "state_view_factory" state_view_factory;
     Kw "executor" executor;
     Kw "squash_handler" squash_handler2;
     Kw "identity_signing_key" (VStr (identity_signing_key a));
     Kw "data_dir" (VStr (data_dir a));
     Kw "config_dir" (VStr (config_dir a));
     Kw "permission_verifier" permission_verifier];
  chain_controller ← new ChainController
    [Kw "block_cache" block_cache;
     Kw "block_validator" block_validator;
     Kw "state_view_factory" state_view_factory;
     Kw "chain_head_lock" (VAttr block_publisher "chain_head_lock");
     Kw "on_chain_updated" (VAttr block_publisher "on_chain_updated");
     Kw "chain_id_manager" chain_id_manager;
     Kw "data_dir" (VStr (data_dir a));
     Kw "config_dir" (VStr (config_dir a));
     Kw "chain_observers"
        (VList [state_delta_processor; event_broadcaster; receipt_store;
                batch_tracker; identity_observer]);
     Kw "metrics_registry" (metrics_registry a)];
  genesis_controller ← new GenesisController
    [Kw "context_manager" context_manager;
     Kw "transaction_executor" executor;
     Kw "completer" completer;
     Kw "block_store" block_store;
     Kw "state_view_factory" state_view_factory;
     Kw "identity_key" (VStr (identity_signing_key a));
     Kw "data_dir" (VStr (data_dir a));
     Kw "config_dir" (VStr (config_dir a));
     Kw "chain_id_manager" chain_id_manager;
     Kw "batch_sender" batch_sender];
  responder ← new Responder [Pos completer];
  invoke completer "set_on_batch_received" [Pos (VAttr block_publisher "queue_batch")];;
  invoke completer "set_on_block_received" [Pos (VAttr chain_controller "queue_block")];;
  (* -- Register Message Handler -- *)
  call (VGlobal "network_handlers.add")
    [Pos network_dispatcher; Pos network_service; Pos gossip; Pos completer;
     Pos responder; Pos network_thread_pool; Pos sig_pool; Pos permission_verifier];;
  call (VGlobal "component_handlers.add")
    [Pos component_dispatcher; Pos gossip; Pos context_manager; Pos executor;
     Pos completer; Pos block_store; Pos batch_tracker; Pos global_state_db;
     Pos (VAttr (VRef self) "get_chain_head_state_root_hash"); Pos receipt_store;
     Pos state_delta_processor; Pos state_delta_store; Pos event_broadcaster;
     Pos permission_verifier; Pos component_thread_pool; Pos sig_pool];;
  (* -- Store Object References -- *)
  setattr self "_component_dispatcher" component_dispatcher;;
  setattr self "_component_service" component_service;;
  setattr self "_component_thread_pool" component_thread_pool;;
  setattr self "_network_dispatcher" network_dispatcher;;
  setattr self "_network_service" network_service;;
  setattr self "_network_thread_pool" network_thread_pool;;
  setattr self "_sig_pool" sig_pool;;
  setattr self "_context_manager" context_manager;;
  setattr self "_executor" executor;;
  setattr self "_genesis_controller" genesis_controller;;
  setattr self "_gossip" gossip;;
  setattr self "_block_publisher" block_publisher;;
  setattr self "_chain_controller" chain_controller;;
  setattr self "_block_validator" block_validator.

(** [Validator(...)]: allocate the instance, then run [__init__] on it. *)
Definition Validator_new (a : init_args) (e : init_env) : res unit * world :=
  let w0 := {| heap := {[ 0 := Object Validator [] ∅ ]}; next := 1;
               trace := []; clock := 0 |} in
  Validator_init a e 0 w0.

(** ** Reading the object graph *)

Definition class_of (w : world) (v : value) : option cls :=
  match v with
  | VRef o => o_class <$> heap w !! o
  | _ => None
  end.

(** The keyword argument [k] that object [v] was constructed with. *)
Definition kwarg (w : world) (v : value) (k : string) : option value :=
  match v with
  | VRef o => ob ← heap w !! o; kwarg_of k (o_init ob)
  | _ => None
  end.

(** All the arguments object [v] was constructed with. *)
Definition ctor_args (w : world) (v : value) : list arg :=
  match v with
  | VRef o => default [] (o_init <$> heap w !! o)
  | _ => []
  end.

(** [v.name] for an attribute assigned under core.py. *)
Definition field (w : world) (v : value) (name : string) : option value :=
  match v with
  | VRef o => ob ← heap w !! o; o_dict ob !! name
  | _ => None
  end.

(** The objects of class [c], in allocation order. *)
Definition instances (w : world) (c : cls) : list value :=
  omap (fun ev => match ev with
                  | ENew o c' _ => if decide (c' = c) then Some (VRef o) else None
                  | _ => None
                  end) (trace w).

(** The calls of a method called [name], oldest first: receiver and arguments. *)
Definition method_calls (w : world) (name : string) : list (value * list arg) :=
  omap (fun ev => match ev with
                  | ECall (VAttr recv n) args =>
                      if String.eqb n name then Some (recv, args) else None
                  | _ => None
                  end) (trace w).

(** ** [Validator.start], [Validator._start] *)

(** What the run depends on outside core.py. *)
Record run_env := RunEnv {
  (* the answer of genesis_controller.requires_genesis() *)
  requires_genesis : bool;
  (* what genesis_controller.start(on_complete) does with its callback *)
  genesis_start : M value -> M value;
  (* signal_event.is_set() at logical time n: has SIGTERM been delivered *)
  sigterm_is_set : nat -> bool
}.

(** A call whose answer the environment provides. *)
Definition ask (f : value) (args : list arg) (answer : value) : M value :=
  call f args;; mret answer.

(** [while not signal_event.is_set(): signal_event.wait(timeout=20)] *)
Fixpoint wait_for_signal (fuel : nat) (is_set : nat -> bool) : M unit :=
  match fuel with
  | 0 => starve
  | S fuel' =>
      t ← now;
      if is_set t then mret tt
      else emit (EWait 20);; tick;; wait_for_signal fuel' is_set
  end.

Definition Validator__start (E : run_env) (fuel : nat) (self : oid) : M value :=
  nd ← getattr self "_network_dispatcher"; invoke nd "start" [];;
  ns ← getattr self "_network_service"; invoke ns "start" [];;
  g ← getattr self "_gossip"; invoke g "start" [];;
  bp ← getattr self "_block_publisher"; invoke bp "start" [];;
  cc ← getattr self "_chain_controller"; invoke cc "start" [];;
  emit (ESignal "SIGTERM");;
  wait_for_signal fuel (sigterm_is_set E);;
  mret VNone.

Definition Validator_start (E : run_env) (fuel : nat) (self : oid) : M value :=
  cd ← getattr self "_component_dispatcher"; invoke cd "start" [];;
  cs ← getattr self "_component_service"; invoke cs "start" [];;
  gc ← getattr self "_genesis_controller";
  r ← ask (VAttr gc "requires_genesis") [] (VBool (requires_genesis E));
  (if truthy r then
     call (VAttr gc "start") [Pos (VAttr (VRef self) "_start")];;
     genesis_start E (Validator__start E fuel self)
   else
     Validator__start E fuel self);;
  (* no return statement: the results above are dropped *)
  mret VNone.

(** ** [Validator.stop] *)

(** The threads of the process as [stop] sees them. Threads are compared
    by identity. *)
Record thread_env := ThreadEnv {
  enumerate : list nat;                (* threading.enumerate() *)
  current_thread : nat;                (* threading.current_thread() *)
  is_alive : nat -> nat -> bool;       (* t.is_alive() at logical time n *)
  thread_name : nat -> string;
  thread_class : nat -> string
}.

(** [l.remove(x)]: drops the first occurrence, [ValueError] when absent. *)
Fixpoint list_remove (x : nat) (l : list nat) : option (list nat) :=
  match l with
  | [] => None
  | y :: rest =>
      if Nat.eqb y x then Some rest
      else cons y <$> list_remove x rest
  end.

Definition remove_thread (x : nat) (l : list nat) : M (list nat) :=
  match list_remove x l with
  | Some l' => mret l'
  | None => raise "ValueError"
  end.

(** [", ".join(["{} ({})".format(x.name, x.__class__.__name__) for x in threads])] *)
Definition remaining_threads (T : thread_env) (threads : list nat) : string :=
  String.concat ", "
    ((fun t => thread_name T t ++ " (" ++ thread_class T t ++ ")") <$> threads).

(** The body of [for t in threads.copy(): ...], threading [threads] through. *)
Fixpoint join_dead (T : thread_env) (copy threads : list nat) : M (list nat) :=
  match copy with
  | [] => mret threads
  | t :: rest =>
      n ← now;
      let alive := is_alive T n t in
      emit (EIsAlive t alive);;
      threads' ← (if negb alive
                  then emit (EJoin t);; remove_thread t threads
                  else mret threads);
      (match threads' with
       | [] => mret tt
       | _ => emit (ESleep 1);; tick
       end);;
      join_dead T rest threads'
  end.

(** [while threads: ...] *)
Fixpoint join_all (fuel : nat) (T : thread_env) (threads : list nat) : M unit :=
  match threads with
  | [] => mret tt
  | _ =>
      match fuel with
      | 0 => starve
      | S fuel' =>
          (if length threads <? 4
           then info "remaining threads: %s" [VStr (remaining_threads T threads)]
           else mret tt);;
          threads' ← join_dead T threads threads;
          join_all fuel' T threads'
      end
  end.

Definition Validator_stop (T : thread_env) (fuel : nat) (self : oid) : M unit :=
  g ← getattr self "_gossip"; invoke g "stop" [];;
  cd ← getattr self "_component_dispatcher"; invoke cd "stop" [];;
  nd ← getattr self "_network_dispatcher"; invoke nd "stop" [];;
  ns ← getattr self "_network_service"; invoke ns "stop" [];;
  cs ← getattr self "_component_service"; invoke cs "stop" [];;
  ntp ← getattr self "_network_thread_pool";
  invoke ntp "shutdown" [Kw "wait" (VBool true)];;
  ctp ← getattr self "_component_thread_pool";
  invoke ctp "shutdown" [Kw "wait" (VBool true)];;
  sp ← getattr self "_sig_pool";
  invoke sp "shutdown" [Kw "wait" (VBool true)];;
  ex ← getattr self "_executor"; invoke ex "stop" [];;
  cm ← getattr self "_context_manager"; invoke cm "stop" [];;
  bp ← getattr self "_block_publisher"; invoke bp "stop" [];;
  cc ← getattr self "_chain_controller"; invoke cc "stop" [];;
  bv ← getattr self "_block_validator"; invoke bv "stop" [];;
  emit (EEnumerate (enumerate T));;
  (* This will remove the MainThread *)
  threads ← remove_thread (current_thread T) (enumerate T);
  join_all fuel T threads;;
  info "All threads have been stopped and joined" [].

(** ** [Validator.get_chain_head_state_root_hash] *)

(** [v.name] at run time, for the attribute names core.py reads off a
    value ([chain_head], [state_root_hash]). A heap object is looked up; a
    value that stands for an object built outside core.py keeps its
    attribute as a term, as in [__init__]; [None] and the other built-in
    values have no such attribute. *)
Definition getattr_v (v : value) (name : string) : M value :=
  match v with
  | VRef o => getattr o name
  | VAttr _ _ | VGlobal _ | VRet _ => mret (VAttr v name)
  | VNone | VBool _ | VInt _ | VFloat _ _ | VStr _ | VList _ =>
      raise "AttributeError"
  end.

Definition Validator_get_chain_head_state_root_hash (self : oid) : M value :=
  cc ← getattr self "_chain_controller";
  head ← getattr_v cc "chain_head";
  getattr_v head "state_root_hash".

(** ** The wired validator *)

(** The world right after [Validator(...)] returned. *)
Definition wired (a : init_args) (e : init_env) : world := (Validator_new a e).2.

(** The validator instance itself. *)
Definition self_ref : value := VRef 0.

(** The callback registered through a setter: the argument of its last call. *)
Definition registered_callback (w : world) (setter : string) : option (value * value) :=
  match last (method_calls w setter) with
  | Some (recv, [Pos cb]) => Some (recv, cb)
  | _ => None
  end.

(** The class owning a bound method. *)
Definition owner_class (w : world) (cb : value) : option cls :=
  match cb with
  | VAttr recv _ => class_of w recv
  | _ => None
  end.

(** Every value passed under keyword [k] to some constructor, oldest first. *)
Definition passed_as (w : world) (k : string) : list value :=
  omap (fun ev => match ev with
                  | ENew _ _ args => kwarg_of k args
                  | _ => None
                  end) (trace w).

(** A concrete configuration, used to run the model. *)
Definition example_args : init_args :=
  {| bind_network := "tcp://127.0.0.1:8800";
     bind_component := "tcp://127.0.0.1:4004";
     endpoint := "tcp://127.0.0.1:8800";
     peering := "static";
     seeds_list := [];
     peer_list := ["tcp://127.0.0.1:8801"];
     data_dir := "/var/lib/sawtooth";
     config_dir := "/etc/sawtooth";
     identity_signing_key := "5Jq6nhPbVjgi9vdUuK2Rb2Hn9V2sX1zQ";
     scheduler_type := "serial";
     permissions := VNone;
     network_public_key := VNone;
     network_private_key := VNone;
     roles := VNone;
     metrics_registry := VNone |}.

Definition example_env : init_env :=
  {| time_digest := "9f86d081884c7d659a2feaa0c55ad015a3bf4f1b2b0b822cd15d6c15b0f00a08";
     generate_public_key := fun k => "02" ++ k |}.

Definition example_world : world := wired example_args example_env.

(** The on-block-received callback of the Completer is a method of an
    object of class [c]. *)
Definition blocks_forwarded_to (w : world) (c : cls) : Prop :=
  exists comp cb,
    registered_callback w "set_on_block_received" = Some (comp, cb) /\
    class_of w comp = Some Completer /\
    owner_class w cb = Some c.


(** ** The validator at run time *)

(** The collaborators the instance keeps in its attributes. *)
Record components := Components {
  c_component_dispatcher : value;
  c_component_service : value;
  c_component_thread_pool : value;
  c_network_dispatcher : value;
  c_network_service : value;
  c_network_thread_pool : value;
  c_sig_pool : value;
  c_context_manager : value;
  c_executor : value;
  c_genesis_controller : value;
  c_gossip : value;
  c_block_publisher : value;
  c_chain_controller : value;
  c_block_validator : value
}.

(** [self] holds the collaborators [cs] in the attributes [__init__] assigns. *)
Definition attached (w : world) (self : oid) (cs : components) : Prop :=
  field w (VRef self) "_component_dispatcher" = Some (c_component_dispatcher cs) /\
  field w (VRef self) "_component_service" = Some (c_component_service cs) /\
  field w (VRef self) "_component_thread_pool" = Some (c_component_thread_pool cs) /\
  field w (VRef self) "_network_dispatcher" = Some (c_network_dispatcher cs) /\
  field w (VRef self) "_network_service" = Some (c_network_service cs) /\
  field w (VRef self) "_network_thread_pool" = Some (c_network_thread_pool cs) /\
  field w (VRef self) "_sig_pool" = Some (c_sig_pool cs) /\
  field w (VRef self) "_context_manager" = Some (c_context_manager cs) /\
  field w (VRef self) "_executor" = Some (c_executor cs) /\
  field w (VRef self) "_genesis_controller" = Some (c_genesis_controller cs) /\
  field w (VRef self) "_gossip" = Some (c_gossip cs) /\
  field w (VRef self) "_block_publisher" = Some (c_block_publisher cs) /\
  field w (VRef self) "_chain_controller" = Some (c_chain_controller cs) /\
  field w (VRef self) "_block_validator" = Some (c_block_validator cs).

(** The collaborators of the wired validator, by allocation index. *)
Definition wired_components : components :=
  {| c_component_dispatcher := VRef 13;
     c_component_service := VRef 15;
     c_component_thread_pool := VRef 10;
     c_network_dispatcher := VRef 14;
     c_network_service := VRef 16;
     c_network_thread_pool := VRef 11;
     c_sig_pool := VRef 12;
     c_context_manager := VRef 17;
     c_executor := VRef 20;
     c_genesis_controller := VRef 37;
     c_gossip := VRef 23;
     c_block_publisher := VRef 34;
     c_chain_controller := VRef 36;
     c_block_validator := VRef 35 |}.

(** The world [w] after the further events [evs]. *)
Definition log (w : world) (evs : list event) : world :=
  {| heap := heap w; next := next w; trace := (trace w ++ evs)%list; clock := clock w |}.

(** What [start] does before it consults the genesis controller. *)
Definition component_start (cs : components) : list event :=
  [ECall (VAttr (c_component_dispatcher cs) "start") [];
   ECall (VAttr (c_component_service cs) "start") [];
   ECall (VAttr (c_genesis_controller cs) "requires_genesis") []].

(** [genesis_controller.start(self._start)] *)
Definition genesis_handover (cs : components) (self : oid) : event :=
  ECall (VAttr (c_genesis_controller cs) "start") [Pos (VAttr (VRef self) "_start")].

(** The steady-state pipeline being started: network dispatcher, network
    service, gossip, block publisher, chain controller. *)
Definition pipeline_start (cs : components) : list event :=
  [ECall (VAttr (c_network_dispatcher cs) "start") [];
   ECall (VAttr (c_network_service cs) "start") [];
   ECall (VAttr (c_gossip cs) "start") [];
   ECall (VAttr (c_block_publisher cs) "start") [];
   ECall (VAttr (c_chain_controller cs) "start") []].

(** Modelled from the spec: [GenesisController] is not under src/. Its
    [start(on_complete)] "constructs and commits a genesis block" and then
    "hands control to the steady-state pipeline" by calling [on_complete]. *)
Definition genesis_per_spec (on_complete : M value) : M value :=
  emit EGenesisCommitted;; on_complete.

(** A genesis controller that never reaches its completion callback. *)
Definition genesis_stalled (on_complete : M value) : M value := mret VNone.

(** The calls [stop] makes before it turns to the threads. *)
Definition shutdown_sequence (cs : components) : list event :=
  [ECall (VAttr (c_gossip cs) "stop") [];
   ECall (VAttr (c_component_dispatcher cs) "stop") [];
   ECall (VAttr (c_network_dispatcher cs) "stop") [];
   ECall (VAttr (c_network_service cs) "stop") [];
   ECall (VAttr (c_component_service cs) "stop") [];
   ECall (VAttr (c_network_thread_pool cs) "shutdown") [Kw "wait" (VBool true)];
   ECall (VAttr (c_component_thread_pool cs) "shutdown") [Kw "wait" (VBool true)];
   ECall (VAttr (c_sig_pool cs) "shutdown") [Kw "wait" (VBool true)];
   ECall (VAttr (c_executor cs) "stop") [];
   ECall (VAttr (c_context_manager cs) "stop") [];
   ECall (VAttr (c_block_publisher cs) "stop") [];
   ECall (VAttr (c_chain_controller cs) "stop") [];
   ECall (VAttr (c_block_validator cs) "stop") []].

(** In [evs], thread [t] answered [is_alive()] with False and was joined
    right after. *)
Definition joined_in (evs : list event) (t : nat) : Prop :=
  exists i, evs !! i = Some (EIsAlive t false) /\ evs !! (S i) = Some (EJoin t).

(** Once a thread has finished it stays finished. *)
Definition threads_stay_dead (T : thread_env) : Prop :=
  forall n t, is_alive T n t = false -> is_alive T (S n) t = false.

(** A process with four threads besides the main one; thread [t] finishes
    at logical time [t]. *)
Definition example_threads : thread_env :=
  {| enumerate := [0; 1; 2; 3; 4];
     current_thread := 0;
     is_alive := fun n t => n <? t;
     thread_name := fun t => if t =? 0 then "MainThread" else "Thread";
     thread_class := fun t => if t =? 0 then "_MainThread" else "Thread" |}.

(** The wired validator once the chain controller has a chain head. *)
Definition example_running_world : world :=
  ((blk ← new (Other "BlockWrapper") [];
    match blk with
    | VRef b =>
        setattr b "state_root_hash"
          (VStr "e4c9b1f2a7d8453c9b1e0f6a2d3c4b5a69788796a5b4c3d2e1f00112233445566");;
        setattr 36 "chain_head" blk
    | _ => mret tt
    end) example_world).2.

(** ** The block cache *)

Module BlockCacheModel.

(** Modelled from the spec: blocks are built outside core.py. A block is
    "identified by a content hash" and carries "a reference to its
    predecessor's hash", a block number and a post-execution state root. *)
Record block := Block {
  block_id : string;
  previous_block_id : string;
  block_num : Z;
  state_root_hash : string
}.

(** Modelled from the spec: the [BlockCache] class is not under src/, only
    its construction [BlockCache(block_store, keep_time=300,
    purge_frequency=30)] is. The cache is "backed by a durable store for
    blocks already part of committed history"; the cache layer holds blocks
    with their last-access time; a sweep runs "on a fixed period". *)
Record cache := Cache {
  store : gmap string block;            (* the durable block store *)
  entries : gmap string (block * Z);    (* cached blocks, with last access time *)
  keep_time : Z;                        (* time-to-live of an entry *)
  purge_frequency : Z;                  (* period of the sweep *)
  last_purge : Z                        (* when the sweep last ran *)
}.

(** Modelled from the spec: the "in use" information "supplied by the
    Completer/Validator": the hashes under an in-flight validation and the
    predecessor hashes of the Completer's unresolved pending entries. *)
Record users := Users {
  in_flight : gset string;
  pending : gset string
}.

Definition in_use (u : users) (h : string) : bool :=
  bool_decide (h ∈ in_flight u) || bool_decide (h ∈ pending u).

(** Modelled from the spec: "put(block) inserts or refreshes a block's
    last-access time". *)
Definition put (now : Z) (b : block) (c : cache) : cache :=
  {| store := store c; entries := <[block_id b := (b, now)]> (entries c);
     keep_time := keep_time c; purge_frequency := purge_frequency c;
     last_purge := last_purge c |}.

(** Modelled from the spec: "get(hash) -> Block | NotFound", falling back
    to the durable store. *)
Definition get (h : string) (c : cache) : option block :=
  match entries c !! h with
  | Some (b, _) => Some b
  | None => store c !! h
  end.

(** Modelled from the spec: "contains(hash) -> bool". *)
Definition contains (h : string) (c : cache) : bool :=
  match get h c with Some _ => true | None => false end.

(** Modelled from the spec: the sweep "evicts any cached-but-uncommitted
    block whose last access exceeds a configured time-to-live, except
    blocks still referenced by an in-flight validation or an unresolved
    dependency chain in the Completer". *)
Definition evicted (u : users) (c : cache) (now : Z) (h : string) (e : block * Z) : bool :=
  (keep_time c <? now - e.2)%Z
  && negb (in_use u h)
  && negb (bool_decide (is_Some (store c !! h))).

Definition sweep (u : users) (now : Z) (c : cache) : cache :=
  {| store := store c;
     entries := filter (fun kv => evicted u c now kv.1 kv.2 = false) (entries c);
     keep_time := keep_time c; purge_frequency := purge_frequency c;
     last_purge := now |}.

(** Modelled from the spec: the background sweep is "run on a fixed
    period"; eviction is "lazy/sweep-based, not immediate-on-expiry". The
    sweeper wakes at time [now] and sweeps when the period has elapsed. *)
Definition tick (u : users) (now : Z) (c : cache) : cache :=
  if (purge_frequency c <=? now - last_purge c)%Z then sweep u now c else c.

(** Modelled from the spec: the blocks of the committed chain ending in
    [head], found by walking predecessor hashes through the store. *)
Inductive on_chain (st : gmap string block) (head : string) : string -> Prop :=
  | on_chain_head b : st !! head = Some b -> on_chain st head head
  | on_chain_prev h b p :
      on_chain st head h -> st !! h = Some b ->
      st !! previous_block_id b = Some p ->
      on_chain st head (previous_block_id b).

End BlockCacheModel.

(** The time parameters a [BlockCache] was constructed with. *)
Definition BlockCache_times (args : list arg) : option (Z * Z) :=
  match kwarg_of "keep_time" args, kwarg_of "purge_frequency" args with
  | Some (VInt k), Some (VInt p) => Some (k, p)
  | _, _ => None
  end.

(** The cache the wiring creates over a given block store, at time [now]. *)
Definition BlockCache_of (w : world) (v : value)
    (st : gmap string BlockCacheModel.block) (now : Z) : option BlockCacheModel.cache :=
  match BlockCache_times (ctor_args w v) with
  | Some (k, p) => Some (BlockCacheModel.Cache st ∅ k p now)
  | None => None
  end.

(** A committed chain of two blocks and one cached candidate on top of it. *)
Definition example_genesis : BlockCacheModel.block :=
  BlockCacheModel.Block "b0" "0000000000000000" 0 "root0".
Definition example_head : BlockCacheModel.block :=
  BlockCacheModel.Block "b1" "b0" 1 "root1".
Definition example_candidate : BlockCacheModel.block :=
  BlockCacheModel.Block "b2" "b1" 2 "root2".

Definition example_cache : BlockCacheModel.cache :=
  {| BlockCacheModel.store := {[ "b0" := example_genesis; "b1" := example_head ]};
     BlockCacheModel.entries := {[ "b2" := (example_candidate, 100%Z) ]};
     BlockCacheModel.keep_time := 300;
     BlockCacheModel.purge_frequency := 30;
     BlockCacheModel.last_purge := 970 |}.

(** The candidate is being validated. *)
Definition example_users : BlockCacheModel.users :=
  {| BlockCacheModel.in_flight := {[ "b2" ]}; BlockCacheModel.pending := ∅ |}.

(** Nobody uses the candidate. *)
Definition example_idle : BlockCacheModel.users :=
  {| BlockCacheModel.in_flight := ∅; BlockCacheModel.pending := ∅ |}.

(** SIGTERM arrives during the second wait. *)
Definition example_sigterm (n : nat) : bool := 2 <=? n.

(** The example validator after [stop] ran against [example_threads]. *)
Definition example_stopped_world : world :=
  (Validator_stop example_threads 10 0 example_world).2.

(** What one pass over the snapshot establishes. *)
Definition seen_dead (T : thread_env) (lo hi : nat) (evs : list event) (t : nat) : Prop :=
  joined_in evs t /\ exists n, lo <= n <= hi /\ is_alive T n t = false.

(** The world after the [if threads: time.sleep(1)] of one iteration. *)
Definition after_sleep (threads : list nat) (w : world) : world :=
  match threads with
  | [] => w
  | _ => {| heap := heap w; next := next w;
            trace := trace w ++ [ESleep 1]; clock := S (clock w) |}
  end.

(** ** Further readings of the object graph and of a run *)

(** The prefixes of the four database files, in the order they are opened. *)
Definition db_prefixes : list string :=
  ["merkle"; "state-deltas"; "txn_receipts"; "block"].

(** The database files [__init__] opens. *)
Definition db_files (a : init_args) : list string :=
  (fun pre => db_filename (data_dir a) pre (bind_network a)) <$> db_prefixes.

Definition arg_value (x : arg) : value :=
  match x with Pos v => v | Kw _ v => v end.

(** The objects a value refers to. *)
Fixpoint refs_of (v : value) : list oid :=
  match v with
  | VRef o => [o]
  | VAttr v' _ => refs_of v'
  | VList vs => flat_map refs_of vs
  | _ => []
  end.

(** Whether an argument refers to object [o]. *)
Definition mentions (o : oid) (x : arg) : bool :=
  existsb (Nat.eqb o) (refs_of (arg_value x)).

(** What one event hands of object [o] to a constructor: the arguments
    that refer to it, each with the object being constructed. *)
Definition handed_by (o : oid) (ev : event) : list (value * arg) :=
  match ev with
  | ENew o' _ args => map (fun x => (VRef o', x)) (List.filter (mentions o) args)
  | _ => []
  end.

(** Where object [o] goes at construction time: every constructor argument
    that refers to it, with the object being constructed, oldest first. *)
Definition handed_to (w : world) (o : oid) : list (value * arg) :=
  flat_map (handed_by o) (trace w).

(** The callees of the calls that have object [o] as receiver or among
    their arguments, oldest first. *)
Definition calls_with (w : world) (o : oid) : list value :=
  omap (fun ev => match ev with
                  | ECall f args =>
                      if existsb (Nat.eqb o) (refs_of f) || existsb (mentions o) args
                      then Some f else None
                  | _ => None
                  end) (trace w).

(** The values [__init__] passes on as it received them from its caller. *)
Definition caller_values (a : init_args) : list value :=
  [permissions a; network_public_key a; network_private_key a; roles a;
   metrics_registry a].

(** The caller's values are the caller's: they were made before
    [__init__] ran, so none of them refers to an object [__init__]
    allocates. *)
Definition caller_owned (a : init_args) : Prop :=
  Forall (fun v => refs_of v = []) (caller_values a).

(** What is called during a run, oldest first. *)
Definition callees (w : world) : list value :=
  omap (fun ev => match ev with ECall f _ => Some f | _ => None end) (trace w).

(** The wired validator while its chain controller has no chain head yet:
    [chain_head] is [None]. *)
Definition example_headless_world : world :=
  (setattr 36 "chain_head" VNone example_world).2.

(** Every [join()] in [evs] is on a thread of [allowed] and comes right
    after that thread answered [is_alive()] with False. *)
Definition polite (allowed : list nat) (evs : list event) : Prop :=
  forall i t, evs !! i = Some (EJoin t) ->
    t ∈ allowed /\ exists j, i = S j /\ evs !! j = Some (EIsAlive t false).

(** A process in which only the main thread is left. *)
Definition example_lonely : thread_env :=
  {| enumerate := [7]; current_thread := 7;
     is_alive := fun _ _ => true;
     thread_name := fun _ => "MainThread";
     thread_class := fun _ => "_MainThread" |}.

(** A process in which thread 1 never finishes. *)
Definition example_stuck : thread_env :=
  {| enumerate := [0; 1; 2]; current_thread := 0;
     is_alive := fun n t => t =? 1;
     thread_name := fun t => if t =? 0 then "MainThread" else "Thread";
     thread_class := fun t => if t =? 0 then "_MainThread" else "Thread" |}.

(** A run without genesis in which SIGTERM arrives during the second wait. *)
Definition example_run_env : run_env :=
  {| requires_genesis := false; genesis_start := genesis_stalled;
     sigterm_is_set := example_sigterm |}.

(** A run in which SIGTERM never arrives. *)
Definition example_unsignalled : run_env :=
  {| requires_genesis := false; genesis_start := genesis_stalled;
     sigterm_is_set := fun _ => false |}.

(** The example validator when [_start] has returned on SIGTERM. *)
Definition example_signalled_world : world :=
  (Validator__start example_run_env 5 0 example_world).2.

Open Scope list_scope.
Open Scope nat_scope.
Import BlockCacheModel.

(** * Properties of the wiring *)

Lemma Validator_new_returns a e : (Validator_new a e).1 = Ret tt.
Proof. reflexivity. Qed.

(** C2. The observers handed to the Chain Controller are, in this order,
    the state-delta processor, the event broadcaster, the transaction
    receipt store, the batch tracker and the identity observer: the
    [chain_observers] argument of the one [ChainController] is the list of
    the unique instances of [StateDeltaProcessor], [EventBroadcaster],
    [TransactionReceiptStore], [BatchTracker] and [IdentityObserver], and
    no other constructor receives a [chain_observers] argument. *)
Theorem chain_observers_order (a : init_args) (e : init_env) :
  let w := wired a e in
  exists cc sdp eb rs bt io,
    instances w ChainController = [cc] /\
    field w self_ref "_chain_controller" = Some cc /\
    instances w StateDeltaProcessor = [sdp] /\
    instances w EventBroadcaster = [eb] /\
    instances w TransactionReceiptStore = [rs] /\
    instances w BatchTracker = [bt] /\
    instances w IdentityObserver = [io] /\
    kwarg w cc "chain_observers" = Some (VList [sdp; eb; rs; bt; io]) /\
    class_of w <$> [sdp; eb; rs; bt; io] =
      Some <$> [StateDeltaProcessor; EventBroadcaster; TransactionReceiptStore;
                BatchTracker; IdentityObserver] /\
    passed_as w "chain_observers" = [VList [sdp; eb; rs; bt; io]].
Proof.
  exists (VRef 36), (VRef 21), (VRef 22), (VRef 6), (VRef 18), (VRef 32).
  repeat split; vm_compute; reflexivity.
Qed.

(** C5. The lock the Chain Controller is constructed with is the
    [chain_head_lock] attribute of the Block Publisher: there is one
    publisher and one controller, both kept on the validator, and the only
    [chain_head_lock] argument passed anywhere is [block_publisher.chain_head_lock],
    passed to the controller. *)
Theorem chain_head_lock_shared (a : init_args) (e : init_env) :
  let w := wired a e in
  exists bp cc,
    instances w BlockPublisher = [bp] /\
    instances w ChainController = [cc] /\
    field w self_ref "_block_publisher" = Some bp /\
    field w self_ref "_chain_controller" = Some cc /\
    kwarg w cc "chain_head_lock" = Some (VAttr bp "chain_head_lock") /\
    passed_as w "chain_head_lock" = [VAttr bp "chain_head_lock"].
Proof.
  exists (VRef 34), (VRef 36). repeat split; vm_compute; reflexivity.
Qed.

(** C6. The [on_chain_updated] callback of the Chain Controller is the
    bound method [on_chain_updated] of the Block Publisher, and it is the
    only callback passed under that name. *)
Theorem on_chain_updated_is_publisher (a : init_args) (e : init_env) :
  let w := wired a e in
  exists bp cc,
    instances w BlockPublisher = [bp] /\
    instances w ChainController = [cc] /\
    field w self_ref "_block_publisher" = Some bp /\
    field w self_ref "_chain_controller" = Some cc /\
    kwarg w cc "on_chain_updated" = Some (VAttr bp "on_chain_updated") /\
    owner_class w (VAttr bp "on_chain_updated") = Some BlockPublisher /\
    passed_as w "on_chain_updated" = [VAttr bp "on_chain_updated"].
Proof.
  exists (VRef 34), (VRef 36). repeat split; vm_compute; reflexivity.
Qed.

(** C7. The on-batch-received callback of the Completer is the publisher's
    [queue_batch]: [set_on_batch_received] is called exactly once, on the
    one Completer, with the bound method [queue_batch] of the one Block
    Publisher. *)
Theorem on_batch_received_is_queue_batch (a : init_args) (e : init_env) :
  let w := wired a e in
  exists c bp,
    instances w Completer = [c] /\
    instances w BlockPublisher = [bp] /\
    field w self_ref "_block_publisher" = Some bp /\
    method_calls w "set_on_batch_received" = [(c, [Pos (VAttr bp "queue_batch")])] /\
    registered_callback w "set_on_batch_received" = Some (c, VAttr bp "queue_batch") /\
    owner_class w (VAttr bp "queue_batch") = Some BlockPublisher.
Proof.
  exists (VRef 24), (VRef 34). repeat split; vm_compute; reflexivity.
Qed.

(** C3. The on-block-received callback wired into the Completer delivers
    resolved blocks into the block-validation path: [set_on_block_received]
    is called exactly once, on the one Completer, with the bound method
    [queue_block] of the one Chain Controller, and that controller is the
    one object constructed with the one Block Validator
    ([block_validator=block_validator]), the validator the instance keeps
    as [_block_validator]. *)
Theorem on_block_received_is_queue_block (a : init_args) (e : init_env) :
  let w := wired a e in
  exists c cc bv,
    instances w Completer = [c] /\
    instances w ChainController = [cc] /\
    instances w BlockValidator = [bv] /\
    field w self_ref "_chain_controller" = Some cc /\
    field w self_ref "_block_validator" = Some bv /\
    method_calls w "set_on_block_received" = [(c, [Pos (VAttr cc "queue_block")])] /\
    registered_callback w "set_on_block_received" = Some (c, VAttr cc "queue_block") /\
    blocks_forwarded_to w ChainController /\
    kwarg w cc "block_validator" = Some bv /\
    class_of w bv = Some BlockValidator /\
    passed_as w "block_validator" = [bv].
Proof.
  exists (VRef 24), (VRef 36), (VRef 35).
  do 7 (split; [vm_compute; reflexivity|]).
  split.
  { exists (VRef 24), (VAttr (VRef 36) "queue_block").
    split; [|split]; vm_compute; reflexivity. }
  split; [|split]; vm_compute; reflexivity.
Qed.

(** * The monad and the trace *)

Lemma bind_ret {A B} (m : M A) (f : A -> M B) w a w1 :
  m w = (Ret a, w1) -> (m ≫= f) w = f a w1.
Proof. intros H. unfold mbind, M_bind. by rewrite H. Qed.

Lemma bind_inv {A B} (m : M A) (f : A -> M B) w b w' :
  (m ≫= f) w = (Ret b, w') ->
  exists a w1, m w = (Ret a, w1) /\ f a w1 = (Ret b, w').
Proof.
  unfold mbind, M_bind. destruct (m w) as [[a| |] w1]; intros H; try discriminate.
  by exists a, w1.
Qed.

Lemma log_nil w : log w [] = w.
Proof. destruct w. unfold log. simpl. by rewrite app_nil_r. Qed.

Lemma log_log w a b : log (log w a) b = log w (a ++ b).
Proof. unfold log. simpl. by rewrite app_assoc. Qed.

Lemma call_log f args w :
  call f args w = (Ret (VRet (length (trace w))), log w [ECall f args]).
Proof. reflexivity. Qed.

Lemma emit_log ev w : emit ev w = (Ret tt, log w [ev]).
Proof. reflexivity. Qed.

Lemma getattr_field w self name v :
  field w (VRef self) name = Some v -> getattr self name w = (Ret v, w).
Proof.
  unfold field, getattr. simpl.
  destruct (heap w !! self) as [ob|]; simpl; [|done].
  by intros ->.
Qed.

Lemma getattr_logged w evs self name v :
  field w (VRef self) name = Some v ->
  getattr self name (log w evs) = (Ret v, log w evs).
Proof. intros H. by apply getattr_field. Qed.

(** One statement [x = self.attr; x.method(args)] on a world [log w evs]. *)
Lemma attr_call {B} w evs self name v meth args (k : M B) :
  field w (VRef self) name = Some v ->
  (x ← getattr self name; invoke x meth args;; k) (log w evs)
  = k (log w (evs ++ [ECall (VAttr v meth) args])).
Proof.
  intros H. rewrite (bind_ret _ _ _ _ _ (getattr_logged w evs self name v H)).
  unfold invoke. rewrite (bind_ret _ _ _ _ _ (call_log _ _ _)).
  by rewrite log_log.
Qed.

(** Run the statements [self.attr.method(args)] whose attributes are given. *)
Ltac run_attr_calls :=
  repeat match goal with
  | H : field ?w (VRef ?self) ?name = Some ?v
    |- context [(getattr ?self ?name ≫= _) (log ?w _)] =>
      rewrite (attr_call _ _ _ _ _ _ _ _ H)
  end.

Lemma wait_for_signal_trace fuel is_set w :
  exists n, (wait_for_signal fuel is_set w).2
            = {| heap := heap w; next := next w;
                 trace := trace w ++ replicate n (EWait 20);
                 clock := clock w + n |}.
Proof.
  revert w. induction fuel as [|fuel IH]; intros w.
  - exists 0. simpl. rewrite app_nil_r, Nat.add_0_r. by destruct w.
  - simpl. unfold mbind, M_bind, now. simpl.
    destruct (is_set (clock w)).
    + exists 0. simpl. rewrite app_nil_r, Nat.add_0_r. by destruct w.
    + simpl.
      match goal with |- context [wait_for_signal fuel is_set ?w1] =>
        destruct (IH w1) as [n Hn] end.
      exists (S n). rewrite Hn. simpl. rewrite <- app_assoc.
      f_equal. lia.
Qed.

Lemma Validator__start_runs E fuel self w evs cs :
  attached w self cs ->
  Validator__start E fuel self (log w evs)
  = (wait_for_signal fuel (sigterm_is_set E);; mret VNone)
      (log w (evs ++ pipeline_start cs ++ [ESignal "SIGTERM"])).
Proof.
  intros (Hcd & Hcs & Hctp & Hnd & Hns & Hntp & Hsp & Hcm & Hex & Hgc & Hg & Hbp & Hcc & Hbv).
  unfold Validator__start.
  run_attr_calls.
  rewrite (bind_ret _ _ _ _ _ (emit_log _ _)). rewrite log_log.
  unfold pipeline_start. by rewrite <- !app_assoc.
Qed.

Lemma attached_wired a e : attached (wired a e) 0 wired_components.
Proof. repeat split; vm_compute; reflexivity. Qed.

Lemma bind_assoc {A B C} (m : M A) (f : A -> M B) (g : B -> M C) w :
  ((m ≫= f) ≫= g) w = (m ≫= (fun x => f x ≫= g)) w.
Proof. unfold mbind, M_bind. by destruct (m w) as [[x| |] w1]. Qed.

(** Dropping a result does not change what happened. *)
Lemma then_ret_world {A B} (m : M A) (v : B) w :
  ((m;; mret v) w).2 = (m w).2.
Proof. unfold mbind, M_bind. by destruct (m w) as [[x| |] w1]. Qed.

Lemma then_ret_value {A B} (m : M A) (v u : B) w w' :
  (m;; mret v) w = (Ret u, w') -> u = v.
Proof.
  unfold mbind, M_bind. destruct (m w) as [[x| |] w1]; [|discriminate..].
  by intros [= <- _].
Qed.

(** C4. [start] starts the component dispatcher and service and asks the
    genesis controller whether genesis is required. When it is not, the
    network dispatcher, network service, gossip, block publisher and chain
    controller are started right away, in this order. When it is, [start]
    does nothing but hand [self._start] to [genesis_controller.start] and
    drop its result: the five are started only by the genesis controller
    calling that callback (a controller that never completes starts none
    of them), and with a genesis controller that commits the genesis
    block and then calls [on_complete], the commit precedes every one of
    the five starts. [start] has no return statement: when it returns,
    it returns [None]. *)
Theorem start_genesis_before_pipeline
    (w : world) (self : oid) (cs : components)
    (G : M value -> M value) (sig : nat -> bool) (fuel : nat) :
  attached w self cs ->
  (exists n,
     trace (Validator_start (RunEnv false G sig) fuel self w).2
     = trace w ++ component_start cs ++ pipeline_start cs
         ++ [ESignal "SIGTERM"] ++ replicate n (EWait 20)) /\
  Validator_start (RunEnv true G sig) fuel self w
  = (G (Validator__start (RunEnv true G sig) fuel self);; mret VNone)
      (log w (component_start cs ++ [genesis_handover cs self])) /\
  trace (Validator_start (RunEnv true genesis_stalled sig) fuel self w).2
  = trace w ++ component_start cs ++ [genesis_handover cs self] /\
  (exists n,
     trace (Validator_start (RunEnv true genesis_per_spec sig) fuel self w).2
     = trace w ++ component_start cs
         ++ [genesis_handover cs self; EGenesisCommitted]
         ++ pipeline_start cs ++ [ESignal "SIGTERM"] ++ replicate n (EWait 20)) /\
  (forall (required : bool) (v : value) (w' : world),
     Validator_start (RunEnv required G sig) fuel self w = (Ret v, w') -> v = VNone).
Proof.
  intros Hat.
  pose proof Hat as (Hcd & Hcs & Hctp & Hnd & Hns & Hntp & Hsp & Hcm & Hex & Hgc & Hg & Hbp & Hcc & Hbv).
  assert (Hpre : forall E,
    Validator_start E fuel self w
    = ((if requires_genesis E
        then call (VAttr (c_genesis_controller cs) "start")
               [Pos (VAttr (VRef self) "_start")];;
             genesis_start E (Validator__start E fuel self)
        else Validator__start E fuel self);; mret VNone)
        (log w (component_start cs))).
  { intros E. unfold Validator_start. rewrite <- (log_nil w) at 1.
    run_attr_calls.
    rewrite (bind_ret _ _ _ _ _ (getattr_logged _ _ _ _ _ Hgc)).
    unfold ask.
    rewrite (bind_ret _ _ (log w _) (VBool (requires_genesis E))
               (log w (component_start cs))).
    - cbn [truthy]. reflexivity.
    - rewrite (bind_ret _ _ _ _ _ (call_log _ _ _)). rewrite log_log. reflexivity. }
  assert (Hgen : forall E, requires_genesis E = true ->
    Validator_start E fuel self w
    = (genesis_start E (Validator__start E fuel self);; mret VNone)
        (log w (component_start cs ++ [genesis_handover cs self]))).
  { intros E Hreq. rewrite Hpre, Hreq, bind_assoc.
    rewrite (bind_ret _ _ _ _ _ (call_log _ _ _)). by rewrite log_log. }
  assert (Htail : forall evs, exists n,
    trace ((wait_for_signal fuel sig;; mret VNone) (log w evs)).2
    = trace w ++ evs ++ replicate n (EWait 20)).
  { intros evs. destruct (wait_for_signal_trace fuel sig (log w evs)) as [n Hn].
    exists n. unfold mbind, M_bind.
    destruct (wait_for_signal fuel sig (log w evs)) as [[[]| |] w1];
      simpl in *; subst w1; simpl; by rewrite <- app_assoc. }
  split; [|split; [|split; [|split]]].
  - rewrite Hpre. cbn [requires_genesis]. rewrite then_ret_world.
    rewrite (Validator__start_runs _ _ _ _ _ _ Hat). cbn [sigterm_is_set].
    match goal with |- context [log w ?evs] => destruct (Htail evs) as [n Hn] end.
    exists n. rewrite Hn. by rewrite <- !app_assoc.
  - by rewrite Hgen.
  - rewrite Hgen by done. rewrite then_ret_world. cbn [genesis_start].
    unfold genesis_stalled. cbn [snd log trace]. unfold mret, M_ret. cbn [snd log trace].
    by rewrite <- ?app_assoc.
  - rewrite Hgen by done. rewrite then_ret_world. cbn [genesis_start].
    unfold genesis_per_spec.
    rewrite (bind_ret _ _ _ _ _ (emit_log _ _)). rewrite log_log.
    rewrite (Validator__start_runs _ _ _ _ _ _ Hat).
    cbn [sigterm_is_set].
    match goal with |- context [log w ?evs] => destruct (Htail evs) as [n Hn] end.
    exists n. rewrite Hn. unfold genesis_handover. by rewrite <- !app_assoc.
  - intros required v w' Hrun. rewrite Hpre in Hrun.
    by apply then_ret_value in Hrun.
Qed.

(** * Joining the threads *)

Lemma list_remove_elem x l l' :
  list_remove x l = Some l' -> forall t, t ∈ l -> t = x \/ t ∈ l'.
Proof.
  revert l'. induction l as [|y l IH]; intros l' H t Ht; [by apply elem_of_nil in Ht|].
  simpl in H. destruct (Nat.eqb_spec y x) as [->|Hne].
  - injection H as <-. apply elem_of_cons in Ht. tauto.
  - destruct (list_remove x l) as [l1|] eqn:E; [|discriminate].
    injection H as <-. apply elem_of_cons in Ht as [->|Ht].
    + right. apply elem_of_cons. by left.
    + destruct (IH l1 eq_refl t Ht); [by left|right]. apply elem_of_cons. by right.
Qed.

Lemma list_remove_sub x l l' :
  list_remove x l = Some l' -> forall t, t ∈ l' -> t ∈ l.
Proof.
  revert l'. induction l as [|y l IH]; intros l' H t Ht; [discriminate|].
  simpl in H. destruct (Nat.eqb_spec y x) as [->|Hne].
  - injection H as <-. apply elem_of_cons. by right.
  - destruct (list_remove x l) as [l1|] eqn:E; [|discriminate].
    injection H as <-. apply elem_of_cons in Ht as [->|Ht]; apply elem_of_cons;
      [by left | right; by eapply IH].
Qed.

Lemma joined_in_app_r a b t : joined_in a t -> joined_in (a ++ b) t.
Proof.
  intros (i & H1 & H2). exists i. split; by apply lookup_app_l_Some.
Qed.

Lemma joined_in_app_l a b t : joined_in b t -> joined_in (a ++ b) t.
Proof.
  intros (i & H1 & H2). exists (length a + i). split.
  - by rewrite lookup_app_r, Nat.add_comm, Nat.add_sub by lia.
  - replace (S (length a + i)) with (length a + S i) by lia.
    by rewrite lookup_app_r, Nat.add_comm, Nat.add_sub by lia.
Qed.

Lemma join_dead_spec T copy : forall threads w threads' w',
  join_dead T copy threads w = (Ret threads', w') ->
  exists evs,
    trace w' = trace w ++ evs /\ heap w' = heap w /\ clock w <= clock w' /\
    (forall t, t ∈ threads -> t ∈ threads' \/ seen_dead T (clock w) (clock w') evs t) /\
    (forall t, t ∈ threads' -> t ∈ threads).
Proof.
  induction copy as [|t rest IH]; intros threads w threads' w' H.
  - injection H as <- <-. exists []. rewrite app_nil_r. repeat split; auto.
  - simpl in H.
    apply bind_inv in H as (n & w1 & Hnow & H). injection Hnow as <- <-.
    apply bind_inv in H as ([] & w2 & Hemit & H). rewrite emit_log in Hemit.
    injection Hemit as <-.
    apply bind_inv in H as (th1 & w3 & Hrm & H).
    apply bind_inv in H as ([] & w4 & Hsl & H).
    apply IH in H as (evs4 & Htr4 & Hh4 & Hc4 & Hin4 & Hsub4).
    assert (Hstep : exists evs3,
      trace w3 = trace w ++ evs3 /\ heap w3 = heap w /\ clock w3 = clock w /\
      (forall u, u ∈ threads -> u ∈ th1 \/ seen_dead T (clock w) (clock w) evs3 u) /\
      (forall u, u ∈ th1 -> u ∈ threads)).
    { destruct (is_alive T (clock w) t) eqn:Halive; simpl in Hrm.
      - injection Hrm as <- <-. exists [EIsAlive t true]. repeat split; auto.
      - apply bind_inv in Hrm as ([] & w5 & Hj & Hrm). rewrite emit_log in Hj.
        injection Hj as <-. rewrite log_log in Hrm. unfold remove_thread in Hrm.
        destruct (list_remove t threads) as [l1|] eqn:Hl; [|discriminate].
        injection Hrm as <- <-.
        exists ([EIsAlive t false] ++ [EJoin t]).
        split; [done|]. split; [done|]. split; [done|]. split.
        + intros u Hu. destruct (list_remove_elem _ _ _ Hl u Hu) as [->|]; [right|by left].
          split; [by exists 0 | exists (clock w); split; [lia|done]].
        + intros u Hu1. by apply (list_remove_sub _ _ _ Hl). }
    destruct Hstep as (evs3 & Htr3 & Hh3 & Hc3 & Hin3 & Hsub3).
    assert (Hsleep : exists evs34,
      trace w4 = trace w3 ++ evs34 /\ heap w4 = heap w3 /\ clock w3 <= clock w4).
    { destruct th1.
      - injection Hsl as <-. exists []. rewrite app_nil_r. auto.
      - apply bind_inv in Hsl as ([] & w5 & He & Hsl). rewrite emit_log in He.
        injection He as <-. injection Hsl as <-. exists [ESleep 1]. simpl. auto. }
    destruct Hsleep as (evs34 & Htr34 & Hh34 & Hc34).
    exists (evs3 ++ evs34 ++ evs4).
    repeat split.
    + rewrite Htr4, Htr34, Htr3. by rewrite <- !app_assoc.
    + congruence.
    + lia.
    + intros u Hu. destruct (Hin3 u Hu) as [Hu1|(Hj & m & Hm & Hd)].
      * destruct (Hin4 u Hu1) as [|(Hj & m & Hm & Hd)]; [by left|right].
        split; [by apply joined_in_app_l, joined_in_app_l|].
        exists m. split; [lia|done].
      * right. split; [by apply joined_in_app_r|]. exists m. split; [lia|done].
    + intros u Hu. auto.
Qed.

Lemma join_all_spec T fuel : forall threads w w',
  join_all fuel T threads w = (Ret tt, w') ->
  exists evs,
    trace w' = trace w ++ evs /\ heap w' = heap w /\ clock w <= clock w' /\
    forall t, t ∈ threads -> seen_dead T (clock w) (clock w') evs t.
Proof.
  induction fuel as [|fuel IH]; intros threads w w' H.
  - destruct threads; [|discriminate]. injection H as <-.
    exists []. rewrite app_nil_r. do 3 (split; [done|]).
    intros t Ht. by apply elem_of_nil in Ht.
  - destruct threads as [|t0 threads0].
    { injection H as <-. exists []. rewrite app_nil_r. do 3 (split; [done|]).
      intros t Ht. by apply elem_of_nil in Ht. }
    set (threads := t0 :: threads0) in *.
    cbn [join_all] in H. fold threads in H.
    apply bind_inv in H as ([] & w1 & Hlog & H).
    assert (Hw1 : exists evs1, trace w1 = trace w ++ evs1 /\ heap w1 = heap w
                               /\ clock w1 = clock w).
    { match type of Hlog with (if ?c then _ else _) _ = _ => destruct c end.
      - unfold info in Hlog. rewrite emit_log in Hlog. injection Hlog as <-.
        by eexists.
      - injection Hlog as <-. exists []. by rewrite app_nil_r. }
    destruct Hw1 as (evs1 & Htr1 & Hh1 & Hc1).
    apply bind_inv in H as (threads' & w2 & Hjd & H).
    apply join_dead_spec in Hjd as (evs2 & Htr2 & Hh2 & Hc2 & Hin2 & Hsub2).
    apply IH in H as (evs3 & Htr3 & Hh3 & Hc3 & Hin3).
    exists (evs1 ++ evs2 ++ evs3).
    split; [rewrite Htr3, Htr2, Htr1; by rewrite <- !app_assoc|].
    split; [congruence|]. split; [lia|].
    intros t Ht. destruct (Hin2 t Ht) as [Ht'|(Hj & n & Hn & Hd)].
    + destruct (Hin3 t Ht') as (Hj & n & Hn & Hd). split.
      * by apply joined_in_app_l, joined_in_app_l.
      * exists n. split; [lia|done].
    + split.
      * by apply joined_in_app_l, joined_in_app_r.
      * exists n. split; [lia|done].
Qed.

Lemma stay_dead T : threads_stay_dead T ->
  forall t n m, n <= m -> is_alive T n t = false -> is_alive T m t = false.
Proof.
  intros Hmono t n m Hle Hn. induction Hle; auto.
Qed.

Lemma Validator_stop_runs T fuel self w cs :
  attached w self cs ->
  Validator_stop T fuel self w
  = (threads ← remove_thread (current_thread T) (enumerate T);
     join_all fuel T threads;;
     info "All threads have been stopped and joined" [])
      (log w (shutdown_sequence cs ++ [EEnumerate (enumerate T)])).
Proof.
  intros (Hcd & Hcs & Hctp & Hnd & Hns & Hntp & Hsp & Hcm & Hex & Hgc & Hg & Hbp & Hcc & Hbv).
  unfold Validator_stop. rewrite <- (log_nil w) at 1.
  run_attr_calls.
  rewrite (bind_ret _ _ _ _ _ (emit_log _ _)). rewrite log_log.
  reflexivity.
Qed.

(** C10. When [stop] returns, it has stopped gossip, the dispatchers and
    the services, shut the network, component and signature pools down
    with [wait=True], stopped the executor, context manager, publisher,
    chain controller and block validator, in this order, and then, for
    every enumerated thread other than the calling (main) thread, seen
    [is_alive()] answer False and joined it: no such thread is alive any
    more. *)
Theorem stop_joins_every_thread
    (T : thread_env) (w : world) (self : oid) (cs : components)
    (fuel : nat) (w' : world) :
  attached w self cs ->
  Validator_stop T fuel self w = (Ret tt, w') ->
  exists loop,
    trace w' = trace w ++ shutdown_sequence cs ++ [EEnumerate (enumerate T)]
                 ++ loop ++ [ELog "info" "All threads have been stopped and joined" []] /\
    forall t, t ∈ enumerate T -> t <> current_thread T ->
      joined_in loop t /\
      (exists n, clock w <= n <= clock w' /\ is_alive T n t = false) /\
      (threads_stay_dead T -> is_alive T (clock w') t = false).
Proof.
  intros Hat H. rewrite (Validator_stop_runs _ _ _ _ _ Hat) in H.
  apply bind_inv in H as (threads & w1 & Hrm & H).
  unfold remove_thread in Hrm.
  destruct (list_remove (current_thread T) (enumerate T)) as [l|] eqn:Hl; [|discriminate].
  injection Hrm as <- <-.
  apply bind_inv in H as ([] & w2 & Hja & H).
  apply join_all_spec in Hja as (loop & Htr & Hh & Hc & Hin).
  unfold info in H. rewrite emit_log in H. injection H as <-.
  exists loop. split.
  - simpl. rewrite Htr. simpl. by rewrite <- !app_assoc.
  - intros t Ht Hne.
    destruct (list_remove_elem _ _ _ Hl t Ht) as [|Ht']; [done|].
    destruct (Hin t Ht') as (Hj & n & Hn & Hd). simpl in Hn.
    split; [done|]. split.
    + exists n. simpl. split; [lia|done].
    + intros Hmono. simpl. apply (stay_dead T Hmono t n); [lia|done].
Qed.

(** * [stop] returns once the threads have finished *)

Lemma list_remove_in x l : x ∈ l -> exists l', list_remove x l = Some l'.
Proof.
  induction l as [|y l IH]; intros H; [by apply elem_of_nil in H|].
  simpl. destruct (Nat.eqb_spec y x) as [->|Hne]; [by eexists|].
  apply elem_of_cons in H as [->|H]; [done|].
  destruct (IH H) as [l' ->]. by eexists.
Qed.

Lemma list_remove_nodup x l l' :
  NoDup l -> list_remove x l = Some l' -> NoDup l' /\ x ∉ l'.
Proof.
  revert l'. induction l as [|y l IH]; intros l' Hnd H; [discriminate|].
  apply NoDup_cons in Hnd as [Hy Hnd]. simpl in H.
  destruct (Nat.eqb_spec y x) as [->|Hne].
  - injection H as <-. done.
  - destruct (list_remove x l) as [l1|] eqn:E; [|discriminate].
    injection H as <-. destruct (IH l1 Hnd eq_refl) as [Hnd1 Hx]. split.
    + apply NoDup_cons. split; [|done]. intros Hin. apply Hy.
      by apply (list_remove_sub _ _ _ E).
    + intros Hin. apply elem_of_cons in Hin as [->|Hin]; [done|]. by apply Hx.
Qed.

Lemma join_dead_cons T t rest threads w :
  join_dead T (t :: rest) threads w =
  if is_alive T (clock w) t
  then join_dead T rest threads (after_sleep threads (log w [EIsAlive t true]))
  else match list_remove t threads with
       | Some th1 =>
           join_dead T rest th1
             (after_sleep th1 (log w [EIsAlive t false; EJoin t]))
       | None => (Raise "ValueError", log w [EIsAlive t false; EJoin t])
       end.
Proof.
  simpl. unfold mbind at 1, M_bind at 1. unfold now.
  unfold mbind at 1, M_bind at 1. rewrite emit_log.
  destruct (is_alive T (clock w) t); simpl.
  - unfold mbind at 1, M_bind at 1. unfold mret at 1, M_ret at 1.
    destruct threads; reflexivity.
  - unfold mbind at 1, M_bind at 1. unfold mbind at 1, M_bind at 1.
    rewrite emit_log, log_log. unfold remove_thread.
    destruct (list_remove t threads) as [th1|]; [|reflexivity].
    unfold mret at 1, M_ret at 1. destruct th1; reflexivity.
Qed.

Lemma clock_after_sleep threads w :
  clock w <= clock (after_sleep threads w) /\
  (threads <> [] -> clock (after_sleep threads w) = S (clock w)).
Proof. destruct threads; simpl; split; auto; try lia. done. Qed.

Lemma join_dead_total T copy : forall threads w,
  NoDup copy -> NoDup threads -> (forall t, t ∈ copy -> t ∈ threads) ->
  exists threads' w',
    join_dead T copy threads w = (Ret threads', w') /\
    NoDup threads' /\
    (forall u, u ∈ threads' -> u ∈ threads) /\
    clock w <= clock w' /\
    (threads' <> [] -> copy <> [] -> clock w < clock w') /\
    ((forall n t, clock w <= n -> t ∈ copy -> is_alive T n t = false) ->
     forall u, u ∈ threads' -> u ∉ copy).
Proof.
  induction copy as [|t rest IH]; intros threads w Hndc Hndt Hsub.
  - exists threads, w. repeat split; auto.
    + intros _ Hc. done.
    + intros _ u _ Hu. by apply elem_of_nil in Hu.
  - apply NoDup_cons in Hndc as [Ht Hndr].
    rewrite join_dead_cons.
    destruct (is_alive T (clock w) t) eqn:Halive.
    + set (w1 := after_sleep threads (log w [EIsAlive t true])).
      destruct (IH threads w1 Hndr Hndt) as (th' & w' & Hrun & Hnd' & Hsub' & Hc' & Hprog & Hclear).
      { intros u Hu. apply Hsub. apply elem_of_cons. by right. }
      destruct (clock_after_sleep threads (log w [EIsAlive t true])) as [Hle Hs].
      fold w1 in Hle, Hs. simpl in Hle, Hs.
      exists th', w'. split; [done|]. split; [done|]. split; [done|].
      split; [lia|]. split.
      * intros Hne _. assert (threads <> []).
        { intros ->. destruct th' as [|u th']; [done|].
          specialize (Hsub' u). rewrite elem_of_cons in Hsub'.
          apply (elem_of_nil u), Hsub'. by left. }
        specialize (Hs H). lia.
      * intros Hdead. specialize (Hdead (clock w) t).
        rewrite Halive in Hdead. discriminate Hdead; [lia|apply elem_of_cons; by left].
    + destruct (list_remove_in t threads) as [th1 Hl].
      { apply Hsub, elem_of_cons. by left. }
      rewrite Hl.
      destruct (list_remove_nodup _ _ _ Hndt Hl) as [Hnd1 Ht1].
      set (w1 := after_sleep th1 (log w [EIsAlive t false; EJoin t])).
      destruct (IH th1 w1 Hndr Hnd1) as (th' & w' & Hrun & Hnd' & Hsub' & Hc' & Hprog & Hclear).
      { intros u Hu.
        destruct (list_remove_elem _ _ _ Hl u) as [->|]; [|done|done].
        apply Hsub, elem_of_cons. by right. }
      destruct (clock_after_sleep th1 (log w [EIsAlive t false; EJoin t])) as [Hle Hs].
      fold w1 in Hle, Hs. simpl in Hle, Hs.
      exists th', w'. split; [done|]. split; [done|]. split.
      { intros u Hu. by apply (list_remove_sub _ _ _ Hl), Hsub'. }
      split; [lia|]. split.
      * intros Hne _. assert (th1 <> []).
        { intros ->. destruct th' as [|u th']; [done|].
          specialize (Hsub' u). rewrite elem_of_cons in Hsub'.
          apply (elem_of_nil u), Hsub'. by left. }
        specialize (Hs H). lia.
      * intros Hdead u Hu Hin. apply elem_of_cons in Hin as [->|Hin].
        -- apply Ht1. by apply Hsub'.
        -- revert Hin. apply Hclear; [|done].
           intros n v Hn Hv. apply Hdead; [lia|]. apply elem_of_cons. by right.
Qed.

Lemma join_all_returns T N fuel : forall threads w,
  NoDup threads ->
  (forall n t, N <= n -> t ∈ threads -> is_alive T n t = false) ->
  N - clock w < fuel ->
  exists w', join_all fuel T threads w = (Ret tt, w').
Proof.
  induction fuel as [|fuel IH]; intros threads w Hnd Hdead Hfuel; [lia|].
  destruct threads as [|t0 threads0]; [by eexists|].
  cbn [join_all]. set (threads := t0 :: threads0) in *.
  set (w1 := ((if length threads <? 4
               then info "remaining threads: %s" [VStr (remaining_threads T threads)]
               else mret tt) w).2).
  assert (Hlog : (if length threads <? 4
                  then info "remaining threads: %s" [VStr (remaining_threads T threads)]
                  else mret tt) w = (Ret tt, w1) /\ clock w1 = clock w).
  { subst w1. destruct (length threads <? 4); done. }
  destruct Hlog as [Hlog Hc1].
  rewrite (bind_ret _ _ _ _ _ Hlog).
  destruct (join_dead_total T threads threads w1 Hnd Hnd)
    as (th' & w2 & Hrun & Hnd' & Hsub' & Hc2 & Hprog & Hclear); [done|].
  rewrite (bind_ret _ _ _ _ _ Hrun).
  destruct (decide (th' = [])) as [->|Hne]; [destruct fuel; by eexists|].
  apply IH; [done| |].
  - intros n t Hn Ht. apply Hdead; auto.
  - assert (clock w1 < clock w2) by (apply Hprog; done).
    destruct (decide (N <= clock w)) as [Hge|Hlt]; [|lia].
    exfalso. destruct th' as [|u th0]; [done|].
    assert (Hu : u ∈ u :: th0) by (apply elem_of_cons; by left).
    apply (Hclear (fun n t Hn Ht => Hdead n t ltac:(lia) Ht) u Hu). by apply Hsub'.
Qed.

(** X14. [stop] does return once the other threads have finished: if the
    enumerated threads are distinct, the caller is among them and every
    other one has finished by logical time [N], [stop] returns after at
    most [N - clock + 1] rounds of the loop. *)
Lemma Validator_stop_returns T N fuel w self cs :
  attached w self cs ->
  NoDup (enumerate T) ->
  current_thread T ∈ enumerate T ->
  (forall n t, N <= n -> t ∈ enumerate T -> t <> current_thread T ->
               is_alive T n t = false) ->
  N - clock w < fuel ->
  exists w', Validator_stop T fuel self w = (Ret tt, w').
Proof.
  intros Hat Hnd Hcur Hdead Hfuel.
  rewrite (Validator_stop_runs _ _ _ _ _ Hat).
  destruct (list_remove_in _ _ Hcur) as [l Hl].
  unfold remove_thread. rewrite Hl.
  unfold mbind at 1, M_bind at 1. unfold mret at 1, M_ret at 1.
  destruct (list_remove_nodup _ _ _ Hnd Hl) as [Hndl Hcl].
  destruct (join_all_returns T N fuel l
              (log w (shutdown_sequence cs ++ [EEnumerate (enumerate T)])) Hndl)
    as [w2 Hw2]; [|done|].
  - intros n t Hn Ht. apply Hdead; [done|by apply (list_remove_sub _ _ _ Hl)|].
    intros ->. done.
  - rewrite (bind_ret _ _ _ _ _ Hw2). by eexists.
Qed.

(** * Reading the chain head's state root *)

(** C9. [get_chain_head_state_root_hash] returns the [state_root_hash]
    attribute of the [chain_head] of the validator's chain controller and
    leaves the world as it found it (no call, no assignment, no event);
    its result is the same in every world that agrees on these three
    attributes. *)
Theorem get_chain_head_state_root_hash_reads_head
    (w : world) (self cc head : oid) (h : value) :
  field w (VRef self) "_chain_controller" = Some (VRef cc) ->
  field w (VRef cc) "chain_head" = Some (VRef head) ->
  field w (VRef head) "state_root_hash" = Some h ->
  Validator_get_chain_head_state_root_hash self w = (Ret h, w) /\
  forall w',
    field w' (VRef self) "_chain_controller" = Some (VRef cc) ->
    field w' (VRef cc) "chain_head" = Some (VRef head) ->
    field w' (VRef head) "state_root_hash" = Some h ->
    (Validator_get_chain_head_state_root_hash self w').1 = Ret h.
Proof.
  assert (Hrun : forall w0,
    field w0 (VRef self) "_chain_controller" = Some (VRef cc) ->
    field w0 (VRef cc) "chain_head" = Some (VRef head) ->
    field w0 (VRef head) "state_root_hash" = Some h ->
    Validator_get_chain_head_state_root_hash self w0 = (Ret h, w0)).
  { intros w0 Hcc Hhead Hroot. unfold Validator_get_chain_head_state_root_hash.
    rewrite (bind_ret _ _ _ _ _ (getattr_field _ _ _ _ Hcc)).
    unfold getattr_v at 1.
    rewrite (bind_ret _ _ _ _ _ (getattr_field _ _ _ _ Hhead)).
    unfold getattr_v. by apply getattr_field. }
  intros Hcc Hhead Hroot. split; [by apply Hrun|].
  intros w' Hcc' Hhead' Hroot'. by rewrite Hrun.
Qed.

Lemma get_chain_head_state_root_hash_reads_head_witness :
  Validator_get_chain_head_state_root_hash 0 example_running_world
  = (Ret (VStr "e4c9b1f2a7d8453c9b1e0f6a2d3c4b5a69788796a5b4c3d2e1f00112233445566"),
     example_running_world).
Proof.
  apply (get_chain_head_state_root_hash_reads_head example_running_world 0 36 39);
    vm_compute; reflexivity.
Defined.

(** * The block cache *)

Lemma get_put now b c : get (block_id b) (put now b c) = Some b.
Proof. unfold get, put. simpl. by rewrite lookup_insert_eq. Qed.

Lemma contains_put now b c : contains (block_id b) (put now b c) = true.
Proof. unfold contains. by rewrite get_put. Qed.

Lemma on_chain_committed st head h : on_chain st head h -> is_Some (st !! h).
Proof. induction 1; eauto. Qed.

Lemma sweep_keeps u now c h e :
  entries c !! h = Some e -> evicted u c now h e = false ->
  entries (sweep u now c) !! h = Some e.
Proof.
  intros He Hk. unfold sweep. simpl. apply map_lookup_filter_Some. done.
Qed.

Lemma sweep_lookup u now c h e :
  entries (sweep u now c) !! h = Some e ->
  entries c !! h = Some e /\ evicted u c now h e = false.
Proof. unfold sweep. simpl. intros H. by apply map_lookup_filter_Some in H. Qed.

Lemma sweep_evicts u now c h e :
  entries c !! h = Some e -> entries (sweep u now c) !! h = None ->
  evicted u c now h e = true.
Proof.
  intros He Hn. destruct (evicted u c now h e) eqn:Hev; [done|].
  rewrite (sweep_keeps _ _ _ _ _ He Hev) in Hn. discriminate.
Qed.

(** C1. The sweep never evicts a block that is referenced by an in-flight
    validation or by a pending dependency of the Completer, or that is on
    the committed chain ending in the chain head: its cache entry, if it
    has one, is still there after the sweep, whenever the sweep runs, and
    the block can still be fetched. The eviction test consults the in-use
    information of the Validator and the Completer. *)
Theorem sweep_spares_blocks_in_use
    (u : users) (c : cache) (now : Z) (head h : string) :
  h ∈ in_flight u \/ h ∈ pending u \/ on_chain (store c) head h ->
  (forall e, entries c !! h = Some e ->
     entries (sweep u now c) !! h = Some e /\
     entries (tick u now c) !! h = Some e) /\
  (forall b, get h c = Some b ->
     get h (sweep u now c) = Some b /\ get h (tick u now c) = Some b).
Proof.
  intros Huse.
  assert (Hk : forall e, evicted u c now h e = false).
  { intros e. unfold evicted, in_use. destruct Huse as [H|[H|H]].
    - rewrite (bool_decide_eq_true_2 _ H). simpl. by rewrite andb_false_r.
    - rewrite (bool_decide_eq_true_2 _ H). rewrite orb_true_r. simpl.
      by rewrite andb_false_r.
    - apply on_chain_committed in H. rewrite (bool_decide_eq_true_2 _ H).
      simpl. by rewrite andb_false_r. }
  assert (He : forall e, entries c !! h = Some e ->
                         entries (sweep u now c) !! h = Some e).
  { intros e H. by apply sweep_keeps. }
  split.
  - intros e H. split; [by apply He|]. unfold tick.
    destruct (_ <=? _)%Z; [by apply He|done].
  - intros b Hget.
    assert (Hs : get h (sweep u now c) = Some b).
    { unfold get in *. destruct (entries c !! h) as [[b' t]|] eqn:Hc.
      - injection Hget as ->. by rewrite (He _ eq_refl).
      - destruct (entries (sweep u now c) !! h) as [[b' t]|] eqn:Hc'; [|done].
        apply sweep_lookup in Hc' as [Hc' _]. congruence. }
    split; [done|]. unfold tick. by destruct (_ <=? _)%Z.
Qed.

Lemma evicted_true_iff (u : users) (c : cache) (now : Z) (h : string) (e : block * Z) :
  evicted u c now h e = true <->
  (keep_time c < now - e.2)%Z /\ in_use u h = false /\ store c !! h = None.
Proof.
  unfold evicted. rewrite !andb_true_iff, !negb_true_iff, Z.ltb_lt.
  rewrite bool_decide_eq_false. split.
  - intros [[H1 H2] H3]. split; [done|]. split; [done|].
    destruct (store c !! h) eqn:Hs; [|done]. destruct H3. by eexists.
  - intros (H1 & H2 & H3). split; [done|]. rewrite H3. by intros [x Hx].
Qed.

(** C8. The wiring creates the one block cache over the block store with
    [keep_time=300] and [purge_frequency=30]. Eviction is by a periodic
    sweep, not on expiry: a tick before the period has elapsed changes
    nothing, however old the entries are; a tick once the period has
    elapsed is a sweep, which records its time, so that no sweep follows
    before another period has elapsed. At a sweep an entry is removed
    exactly when it is uncommitted, not in use and was last accessed more
    than [keep_time] ago; every other entry stays as it is, and the
    store and the two time parameters are never changed. *)
Theorem sweep_is_lazy_and_by_ttl (a : init_args) (e : init_env)
    (u : users) (c : cache) (now : Z) (h : string) (b : block) (t : Z) :
  (exists bs bc,
     instances (wired a e) BlockStore = [bs] /\
     instances (wired a e) BlockCache = [bc] /\
     ctor_args (wired a e) bc
       = [Pos bs; Kw "keep_time" (VInt 300); Kw "purge_frequency" (VInt 30)] /\
     forall st t0,
       BlockCache_of (wired a e) bc st t0 = Some (Cache st ∅ 300 30 t0)) /\
  ((now - last_purge c < purge_frequency c)%Z -> tick u now c = c) /\
  ((purge_frequency c <= now - last_purge c)%Z -> tick u now c = sweep u now c) /\
  (entries c !! h = Some (b, t) -> entries (tick u now c) !! h = None ->
   (purge_frequency c <= now - last_purge c)%Z /\ (keep_time c < now - t)%Z /\
   store c !! h = None) /\
  (entries c !! h = Some (b, t) -> (now - t <= keep_time c)%Z ->
   entries (tick u now c) !! h = Some (b, t)) /\
  (* a due tick evicts what is expired, unused and uncommitted *)
  ((purge_frequency c <= now - last_purge c)%Z ->
   entries c !! h = Some (b, t) ->
   (keep_time c < now - t)%Z -> in_use u h = false -> store c !! h = None ->
   entries (tick u now c) !! h = None /\ get h (tick u now c) = None) /\
  (* and nothing else: the entries after a due tick, exactly *)
  ((purge_frequency c <= now - last_purge c)%Z ->
   forall h' e',
     entries (tick u now c) !! h' = Some e' <->
     entries c !! h' = Some e' /\
     ((now - e'.2 <= keep_time c)%Z \/ in_use u h' = true \/ is_Some (store c !! h'))) /\
  (* the sweep records its time: the next one is a period away *)
  ((purge_frequency c <= now - last_purge c)%Z ->
   last_purge (tick u now c) = now /\
   forall u' now', (now' - now < purge_frequency c)%Z ->
     tick u' now' (tick u now c) = tick u now c) /\
  (store (tick u now c) = store c /\
   keep_time (tick u now c) = keep_time c /\
   purge_frequency (tick u now c) = purge_frequency c).
Proof.
  assert (Hdue : (purge_frequency c <= now - last_purge c)%Z ->
                 tick u now c = sweep u now c).
  { intros Hle. unfold tick.
    destruct (Z.leb_spec (purge_frequency c) (now - last_purge c)); [done|lia]. }
  split.
  { exists (VRef 8), (VRef 9). split; [|split; [|split]]; vm_compute; reflexivity. }
  split.
  { intros Hlt. unfold tick. destruct (Z.leb_spec (purge_frequency c) (now - last_purge c)); [lia|done]. }
  split; [exact Hdue|].
  split.
  { intros He Hn. unfold tick in Hn.
    destruct (Z.leb_spec (purge_frequency c) (now - last_purge c)); [|congruence].
    split; [done|]. apply (sweep_evicts _ _ _ _ _ He) in Hn.
    apply evicted_true_iff in Hn as (H1 & _ & H3). done. }
  split.
  { intros He Hle. unfold tick.
    destruct (Z.leb_spec (purge_frequency c) (now - last_purge c)); [|done].
    apply sweep_keeps; [done|]. unfold evicted. simpl.
    destruct (Z.ltb_spec (keep_time c) (now - t)); [lia|done]. }
  split.
  { intros Hle He Hexp Hidle Hunc. rewrite (Hdue Hle).
    assert (Hgone : entries (sweep u now c) !! h = None).
    { destruct (entries (sweep u now c) !! h) as [e1|] eqn:Hs; [|done].
      apply sweep_lookup in Hs as [Hs Hev]. rewrite He in Hs. injection Hs as <-.
      assert (Ht : evicted u c now h (b, t) = true) by (by apply evicted_true_iff).
      congruence. }
    split; [done|]. unfold get. by rewrite Hgone. }
  split.
  { intros Hle h' e'. rewrite (Hdue Hle). unfold sweep. cbn [entries].
    rewrite map_lookup_filter_Some. cbn [fst snd].
    split; intros [He Hk]; (split; [done|]).
    - destruct (Z.le_gt_cases (now - e'.2) (keep_time c)) as [|Hgt]; [by left|right].
      destruct (in_use u h') eqn:Hu; [by left|right].
      destruct (store c !! h') eqn:Hs; [by eexists|].
      assert (evicted u c now h' e' = true) by (apply evicted_true_iff; split; [lia|done]).
      congruence.
    - destruct (evicted u c now h' e') eqn:Hev; [|done].
      apply evicted_true_iff in Hev as (H1 & H2 & H3).
      destruct Hk as [Hk|[Hk|[x Hk]]]; [lia|congruence|congruence]. }
  split.
  { intros Hle. rewrite (Hdue Hle). split; [done|].
    intros u' now' Hlt. unfold tick. cbn [sweep purge_frequency last_purge].
    destruct (Z.leb_spec (purge_frequency c) (now' - now)); [lia|done]. }
  unfold tick. by destruct (_ <=? _)%Z.
Qed.

(** * The model at work *)

Lemma start_genesis_before_pipeline_witness :
  attached example_world 0 wired_components /\
  exists n,
    trace (Validator_start (RunEnv true genesis_per_spec example_sigterm) 5 0
             example_world).2
    = trace example_world ++ component_start wired_components
        ++ [genesis_handover wired_components 0; EGenesisCommitted]
        ++ pipeline_start wired_components ++ [ESignal "SIGTERM"]
        ++ replicate n (EWait 20).
Proof.
  assert (H : attached example_world 0 wired_components)
    by (repeat split; vm_compute; reflexivity).
  split; [exact H|].
  exact (proj1 (proj2 (proj2 (proj2
    (start_genesis_before_pipeline example_world 0 wired_components
       genesis_per_spec example_sigterm 5 H))))).
Defined.

(** The run of the witness, event by event: genesis is committed before
    the pipeline starts, and the main thread waits twice for SIGTERM. *)
Example start_with_genesis_trace :
  drop (length (trace example_world))
    (trace (Validator_start (RunEnv true genesis_per_spec example_sigterm) 5 0
              example_world).2)
  = [ECall (VAttr (VRef 13) "start") [];
     ECall (VAttr (VRef 15) "start") [];
     ECall (VAttr (VRef 37) "requires_genesis") [];
     ECall (VAttr (VRef 37) "start") [Pos (VAttr (VRef 0) "_start")];
     EGenesisCommitted;
     ECall (VAttr (VRef 14) "start") [];
     ECall (VAttr (VRef 16) "start") [];
     ECall (VAttr (VRef 23) "start") [];
     ECall (VAttr (VRef 34) "start") [];
     ECall (VAttr (VRef 36) "start") [];
     ESignal "SIGTERM"; EWait 20; EWait 20].
Proof. vm_compute. reflexivity. Qed.

Lemma stop_joins_every_thread_witness :
  Validator_stop example_threads 10 0 example_world = (Ret tt, example_stopped_world) /\
  exists loop,
    trace example_stopped_world
    = trace example_world ++ shutdown_sequence wired_components
        ++ [EEnumerate (enumerate example_threads)] ++ loop
        ++ [ELog "info" "All threads have been stopped and joined" []] /\
    forall t, t ∈ enumerate example_threads -> t <> current_thread example_threads ->
      joined_in loop t /\
      (exists n, clock example_world <= n <= clock example_stopped_world
                 /\ is_alive example_threads n t = false) /\
      (threads_stay_dead example_threads ->
       is_alive example_threads (clock example_stopped_world) t = false).
Proof.
  assert (Hat : attached example_world 0 wired_components)
    by (repeat split; vm_compute; reflexivity).
  assert (Hrun : Validator_stop example_threads 10 0 example_world
                 = (Ret tt, example_stopped_world))
    by (vm_compute; reflexivity).
  split; [exact Hrun|].
  exact (stop_joins_every_thread example_threads example_world 0 wired_components
           10 example_stopped_world Hat Hrun).
Defined.

(** The loop of the witness: the four threads are still alive during the
    first pass and are found dead and joined during the second. *)
Example stop_loop_trace :
  drop (length (trace example_world) + 14) (trace example_stopped_world)
  = [EIsAlive 1 true; ESleep 1; EIsAlive 2 true; ESleep 1;
     EIsAlive 3 true; ESleep 1; EIsAlive 4 true; ESleep 1;
     EIsAlive 1 false; EJoin 1; ESleep 1;
     EIsAlive 2 false; EJoin 2; ESleep 1;
     EIsAlive 3 false; EJoin 3; ESleep 1;
     EIsAlive 4 false; EJoin 4;
     ELog "info" "All threads have been stopped and joined" []].
Proof. vm_compute. reflexivity. Qed.

(** With too few rounds the loop is still running. *)
Example stop_still_running :
  (Validator_stop example_threads 1 0 example_world).1 = Starved.
Proof. vm_compute. reflexivity. Qed.

Lemma sweep_spares_blocks_in_use_witness :
  "b2" ∈ in_flight example_users /\
  entries (tick example_users 1000 example_cache) !! "b2"
    = Some (example_candidate, 100%Z) /\
  get "b2" (tick example_users 1000 example_cache) = Some example_candidate.
Proof.
  assert (Hin : "b2" ∈ in_flight example_users)
    by (cbn [in_flight example_users]; set_solver).
  pose proof (sweep_spares_blocks_in_use example_users example_cache 1000
                "b1" "b2" (or_introl Hin)) as [He Hg].
  split; [exact Hin|]. split.
  - apply He. vm_compute. reflexivity.
  - apply Hg. vm_compute. reflexivity.
Defined.

(** The same candidate is evicted by the same tick when nobody uses it,
    and the committed blocks stay. *)
Example sweep_evicts_idle_candidate :
  get "b2" (tick example_idle 1000 example_cache) = None /\
  get "b1" (tick example_idle 1000 example_cache) = Some example_head /\
  get "b0" (tick example_idle 1000 example_cache) = Some example_genesis.
Proof. repeat split; vm_compute; reflexivity. Qed.

Lemma sweep_is_lazy_and_by_ttl_witness :
  tick example_idle 999 example_cache = example_cache /\
  ((purge_frequency example_cache <= 1000 - last_purge example_cache)%Z /\
   (keep_time example_cache < 1000 - 100)%Z /\
   store example_cache !! "b2" = None) /\
  (entries (tick example_idle 1000 example_cache) !! "b2" = None /\
   get "b2" (tick example_idle 1000 example_cache) = None) /\
  last_purge (tick example_idle 1000 example_cache) = 1000%Z.
Proof.
  pose proof (sweep_is_lazy_and_by_ttl example_args example_env example_idle
                example_cache 999 "b2" example_candidate 100) as (_ & Hlazy & _).
  pose proof (sweep_is_lazy_and_by_ttl example_args example_env example_idle
                example_cache 1000 "b2" example_candidate 100)
    as (_ & _ & _ & Hout & _ & Hevict & _ & Hstamp & _).
  assert (Hd : (purge_frequency example_cache <= 1000 - last_purge example_cache)%Z)
    by (vm_compute; discriminate).
  split; [apply Hlazy; vm_compute; reflexivity|].
  split; [apply Hout; vm_compute; reflexivity|].
  split; [apply Hevict; vm_compute; first [reflexivity|discriminate]|].
  apply (Hstamp Hd).
Defined.

(** * Further properties of the code *)

(** * Strings *)

Lemma string_app_length (s t : string) :
  String.length (s ++ t) = String.length s + String.length t.
Proof. induction s as [|c s IH]; simpl; [done|]. by rewrite IH. Qed.

Lemma string_app_inj_l (p s t : string) : (p ++ s = p ++ t)%string -> s = t.
Proof. induction p as [|c p IH]; simpl; [done|]. intros H. injection H as H. auto. Qed.

Lemma string_app_inj_r (x : string) : forall y s : string,
  (x ++ s = y ++ s)%string -> x = y.
Proof.
  induction x as [|c x IH]; intros [|d y] s H; simpl in H.
  - done.
  - apply (f_equal String.length) in H.
    simpl in H. rewrite ?string_app_length in H. simpl in H.
    rewrite ?string_app_length in H. lia.
  - apply (f_equal String.length) in H.
    simpl in H. rewrite ?string_app_length in H. simpl in H.
    rewrite ?string_app_length in H. lia.
  - injection H as -> H. f_equal. by apply (IH y s).
Qed.

Lemma substring_whole (m : nat) : forall s : string,
  String.length s <= m -> substring 0 m s = s.
Proof.
  induction m as [|m IH]; intros [|c s] H; simpl in *; try done; try lia.
  f_equal. apply IH. lia.
Qed.

Lemma substring_suffix (n : nat) : forall s : string,
  n <= String.length s ->
  exists p : string,
    s = (p ++ substring n (String.length s - n) s)%string /\ String.length p = n.
Proof.
  induction n as [|n IH]; intros s H.
  - exists "". rewrite Nat.sub_0_r, substring_whole by lia. done.
  - destruct s as [|c s]; simpl in H; [lia|].
    destruct (IH s ltac:(lia)) as (p & Hp & Hl).
    exists (String c p). split; [|simpl; by rewrite Hl].
    change (String c s = String c (p ++ substring n (String.length s - n) s)%string).
    by rewrite <- Hp.
Qed.

Lemma substring_length_le (n m : nat) : forall s : string,
  String.length (substring n m s) <= m.
Proof.
  revert m. induction n as [|n IHn]; intros m.
  - induction m as [|m IHm]; intros [|c s]; simpl; try lia.
    specialize (IHm s). lia.
  - intros [|c s]; simpl; [lia|]. apply IHn.
Qed.

(** * The database files *)

(** X3. [bind_network[-2:]] never fails and is always a suffix: the whole
    string when it has fewer than two characters, its last two characters
    otherwise. *)
Theorem last2_is_suffix (s : string) :
  (exists p : string, s = (p ++ last2 s)%string) /\
  String.length (last2 s) = Nat.min 2 (String.length s) /\
  (String.length s <= 2 -> last2 s = s).
Proof.
  unfold last2.
  destruct (le_lt_dec (String.length s) 2) as [Hle|Hgt].
  - replace (String.length s - 2) with 0 by lia.
    rewrite substring_whole by done.
    split; [by exists ""|]. split; [lia|done].
  - destruct (substring_suffix (String.length s - 2) s ltac:(lia)) as (p & Hp & Hl).
    replace (String.length s - (String.length s - 2)) with 2 in Hp by lia.
    split; [by exists p|]. split; [|lia].
    apply (f_equal String.length) in Hp. rewrite string_app_length in Hp. lia.
Qed.

Lemma os_path_join_inj (d x y : string) :
  starts_with_sep x = starts_with_sep y ->
  os_path_join d x = os_path_join d y -> x = y.
Proof.
  unfold os_path_join. intros <-.
  destruct (starts_with_sep x); [done|].
  destruct ((String.length d =? 0) || ends_with_sep d); intros H.
  - by apply string_app_inj_l in H.
  - by apply string_app_inj_l, string_app_inj_l in H.
Qed.

Lemma db_name_starts (pre s t : string) :
  starts_with_sep (pre ++ "-" ++ s)%string = starts_with_sep (pre ++ "-" ++ t)%string.
Proof. by destruct pre. Qed.

(** X2. The database file of a validator depends on its bind address only
    through the last two characters: two addresses give the same file
    exactly when their last two characters agree. *)
Theorem db_filename_same_iff (dir pre b1 b2 : string) :
  db_filename dir pre b1 = db_filename dir pre b2 <-> last2 b1 = last2 b2.
Proof.
  unfold db_filename. split; [|by intros ->].
  intros H. apply os_path_join_inj in H; [|apply db_name_starts].
  apply string_app_inj_l, string_app_inj_l in H.
  by apply string_app_inj_r in H.
Qed.

Lemma db_filename_prefix_ne (dir p1 p2 b : string) :
  starts_with_sep p1 = false -> starts_with_sep p2 = false ->
  String.get 0 p1 <> String.get 0 p2 -> String.get 0 p1 <> None ->
  String.get 0 p2 <> None ->
  db_filename dir p1 b <> db_filename dir p2 b.
Proof.
  intros H1 H2 Hne Hn1 Hn2 H. unfold db_filename in H.
  destruct p1 as [|c1 p1]; [done|]. destruct p2 as [|c2 p2]; [done|].
  apply os_path_join_inj in H;
    [|transitivity false; [exact H1|symmetry; exact H2]].
  apply (f_equal (String.get 0)) in H. by apply Hne.
Qed.

(** X1. The four databases are opened on four different files: for every
    data directory and bind address, the global state, state delta,
    receipt and block databases, opened in this order with flag ['c'],
    never share a file. *)
Theorem db_files_distinct (a : init_args) (e : init_env) :
  ctor_args (wired a e) <$> instances (wired a e) LMDBNoLockDatabase
    = (fun f => [Pos (VStr f); Pos (VStr "c")]) <$> db_files a /\
  NoDup (db_files a).
Proof.
  split; [vm_compute; reflexivity|].
  unfold db_files, db_prefixes. simpl.
  repeat (apply NoDup_cons; split);
    [ .. | apply NoDup_nil_2 ];
    rewrite ?elem_of_cons, ?elem_of_nil;
    intros H; repeat (destruct H as [H|H]); try done;
    revert H; by apply db_filename_prefix_ne.
Qed.

(** * More of the wiring *)


Lemma both_given (p q : value) :
  (Some (VBool (negb (is_none p) && negb (is_none q))) = Some (VBool true) <->
     p <> VNone /\ q <> VNone) /\
  (Some (VBool (negb (is_none p) && negb (is_none q))) = Some (VBool false) <->
     p = VNone \/ q = VNone).
Proof.
  destruct p, q; simpl; (split; split; intros H;
    [ try discriminate; try (split; discriminate)
    | try reflexivity; try (destruct H as [H1 H2]; congruence)
    | try discriminate; try (by left); try (by right)
    | try reflexivity; try (destruct H as [H|H]; discriminate) ]).
Qed.

(** X4. The network service is secured exactly when both network keys are
    given, and is handed the two keys as they came; the component service
    is never secured. *)
Theorem network_secured_iff (a : init_args) (e : init_env) :
  let w := wired a e in
  exists ns cs,
    field w self_ref "_network_service" = Some ns /\
    field w self_ref "_component_service" = Some cs /\
    instances w Interconnect = [cs; ns] /\
    (kwarg w ns "secured" = Some (VBool true) <->
       network_public_key a <> VNone /\ network_private_key a <> VNone) /\
    (kwarg w ns "secured" = Some (VBool false) <->
       network_public_key a = VNone \/ network_private_key a = VNone) /\
    kwarg w ns "server_public_key" = Some (network_public_key a) /\
    kwarg w ns "server_private_key" = Some (network_private_key a) /\
    kwarg w cs "secured" = Some (VBool false).
Proof.
  intros w. exists (VRef 16), (VRef 15).
  assert (Hs : kwarg w (VRef 16) "secured"
               = Some (VBool (negb (is_none (network_public_key a))
                              && negb (is_none (network_private_key a)))))
    by (vm_compute; reflexivity).
  split; [vm_compute; reflexivity|]. split; [vm_compute; reflexivity|].
  split; [vm_compute; reflexivity|].
  rewrite Hs. clear Hs.
  split; [apply both_given|]. split; [apply both_given|].
  subst w. repeat split; vm_compute; reflexivity.
Qed.


Lemma mentions_nil (o : oid) (x : arg) :
  refs_of (arg_value x) = [] -> mentions o x = false.
Proof. unfold mentions. by intros ->. Qed.

Lemma refs_of_str_list (l : list string) : refs_of (str_list l) = [].
Proof. simpl. induction l as [|s l IH]; simpl; done. Qed.

Lemma caller_owned_inv (a : init_args) :
  caller_owned a ->
  refs_of (permissions a) = [] /\ refs_of (network_public_key a) = [] /\
  refs_of (network_private_key a) = [] /\ refs_of (roles a) = [] /\
  refs_of (metrics_registry a) = [].
Proof.
  unfold caller_owned, caller_values. rewrite !Forall_cons. tauto.
Qed.

Lemma filter_skip {A} (p : A -> bool) (x : A) (l r : list A) :
  p x = false -> List.filter p l = r -> List.filter p (x :: l) = r.
Proof. intros Hx <-. simpl. by rewrite Hx. Qed.

Lemma filter_take {A} (p : A -> bool) (x : A) (l r : list A) :
  p x = true -> List.filter p l = r -> List.filter p (x :: l) = x :: r.
Proof. intros Hx <-. simpl. by rewrite Hx. Qed.

Lemma handed_by_new (o o' : oid) (c : cls) (args xs : list arg) :
  List.filter (mentions o) args = xs ->
  handed_by o (ENew o' c args) = map (fun x => (VRef o', x)) xs.
Proof. by intros <-. Qed.

Lemma flat_map_step {A B} (f : A -> list B) (x : A) (l : list A) (xs r : list B) :
  f x = xs -> flat_map f l = r -> flat_map f (x :: l) = xs ++ r.
Proof. by intros <- <-. Qed.

(** Settles [mentions o x = false] for one argument: by evaluation where
    [__init__] built it, by ownership where it is the caller's. *)
Ltac not_mentioned :=
  first [ reflexivity
        | apply mentions_nil; first [assumption | apply refs_of_str_list] ].

Ltac filter_mentions :=
  repeat first
    [ apply (@eq_refl (list arg) [])
    | eapply filter_skip; [solve [not_mentioned]|]
    | eapply filter_take; [reflexivity|] ].

(** Runs [handed_to] over the construction trace, event by event. *)
Ltac run_handed_to a e :=
  unfold handed_to;
  let t := fresh "t" in
  set (t := trace (wired a e)); vm_compute in t; subst t;
  etransitivity;
  [ repeat first
      [ apply (@eq_refl (list (value * arg)) [])
      | eapply flat_map_step;
        [ first [ eapply handed_by_new; filter_mentions | reflexivity ] | ] ]
  | reflexivity ].

(** X6. There is one block store and one block cache. The cache is handed
    to the block publisher, the block validator and the chain controller
    the validator keeps, under the keyword [block_cache], and to nothing
    else: of all the constructor calls [__init__] makes, these three
    arguments are the only ones that refer to the cache, under any keyword
    or positionally, and no call made during construction has the cache as
    receiver or argument. The Completer in particular is constructed from
    the block store and gossip alone. *)
Theorem block_cache_wiring (a : init_args) (e : init_env) :
  caller_owned a ->
  let w := wired a e in
  exists bs bc c g bp bv cc,
    instances w BlockStore = [bs] /\
    instances w BlockCache = [VRef bc] /\
    instances w Completer = [c] /\
    instances w Gossip = [g] /\
    instances w BlockPublisher = [bp] /\
    instances w BlockValidator = [bv] /\
    instances w ChainController = [cc] /\
    field w self_ref "_block_publisher" = Some bp /\
    field w self_ref "_block_validator" = Some bv /\
    field w self_ref "_chain_controller" = Some cc /\
    kwarg w bp "block_cache" = Some (VRef bc) /\
    kwarg w bv "block_cache" = Some (VRef bc) /\
    kwarg w cc "block_cache" = Some (VRef bc) /\
    passed_as w "block_cache" = [VRef bc; VRef bc; VRef bc] /\
    handed_to w bc = [(bp, Kw "block_cache" (VRef bc));
                      (bv, Kw "block_cache" (VRef bc));
                      (cc, Kw "block_cache" (VRef bc))] /\
    ctor_args w c = [Pos bs; Pos g] /\
    calls_with w bc = [].
Proof.
  intros Ha w. subst w.
  apply caller_owned_inv in Ha as (? & ? & ? & ? & ?).
  exists (VRef 8), 9, (VRef 24), (VRef 23), (VRef 34), (VRef 35), (VRef 36).
  do 14 (split; [vm_compute; reflexivity|]).
  split; [run_handed_to a e|].
  split; vm_compute; reflexivity.
Qed.

Lemma block_cache_wiring_witness :
  caller_owned example_args /\
  exists bp bv cc,
    field example_world self_ref "_block_publisher" = Some bp /\
    field example_world self_ref "_block_validator" = Some bv /\
    field example_world self_ref "_chain_controller" = Some cc /\
    handed_to example_world 9 = [(bp, Kw "block_cache" (VRef 9));
                                 (bv, Kw "block_cache" (VRef 9));
                                 (cc, Kw "block_cache" (VRef 9))].
Proof.
  assert (Ha : caller_owned example_args) by (repeat constructor).
  split; [exact Ha|].
  destruct (block_cache_wiring example_args example_env Ha)
    as (bs & bc & c & g & bp & bv & cc & _ & Hbc & _ & _ & _ & _ & _ &
        Hbp & Hbv & Hcc & _ & _ & _ & _ & Hh & _).
  assert (Hbc' : instances (wired example_args example_env) BlockCache = [VRef 9])
    by (vm_compute; reflexivity).
  rewrite Hbc' in Hbc. injection Hbc as <-.
  exists bp, bv, cc. split; [exact Hbp|]. split; [exact Hbv|]. split; [exact Hcc|].
  exact Hh.
Defined.

(** X7. The one batch tracker is registered in three roles: as the
    executor's only invalid-transaction observer, as the publisher's only
    batch observer, and among the chain controller's chain observers; it
    is built over the block store. *)
Theorem batch_tracker_roles (a : init_args) (e : init_env) :
  let w := wired a e in
  exists bt bs ex bp cc obs,
    instances w BatchTracker = [bt] /\
    instances w BlockStore = [bs] /\
    ctor_args w bt = [Pos bs] /\
    field w self_ref "_executor" = Some ex /\
    field w self_ref "_block_publisher" = Some bp /\
    field w self_ref "_chain_controller" = Some cc /\
    kwarg w ex "invalid_observers" = Some (VList [bt]) /\
    kwarg w bp "batch_observers" = Some (VList [bt]) /\
    kwarg w cc "chain_observers" = Some (VList obs) /\
    bt ∈ obs.
Proof.
  exists (VRef 18), (VRef 8), (VRef 20), (VRef 34), (VRef 36),
         [VRef 21; VRef 22; VRef 6; VRef 18; VRef 32].
  repeat split; try (vm_compute; reflexivity).
  rewrite !elem_of_cons. tauto.
Qed.

(** X18. Construction makes seven calls, in this order: the component
    service learns the executor's connection check, the context manager
    is asked twice for a squash handler, the Completer gets its batch and
    block callbacks, and only then are the network and the component
    message handlers registered. No handler is registered while the
    Completer still lacks a callback. *)
Theorem construction_call_order (a : init_args) (e : init_env) :
  let w := wired a e in
  exists cs cm c ex,
    field w self_ref "_component_service" = Some cs /\
    field w self_ref "_context_manager" = Some cm /\
    field w self_ref "_executor" = Some ex /\
    instances w Completer = [c] /\
    callees w =
      [VAttr cs "set_check_connections";
       VAttr cm "get_squash_handler";
       VAttr cm "get_squash_handler";
       VAttr c "set_on_batch_received";
       VAttr c "set_on_block_received";
       VGlobal "network_handlers.add";
       VGlobal "component_handlers.add"] /\
    method_calls w "set_check_connections" = [(cs, [Pos (VAttr ex "check_connections")])].
Proof.
  exists (VRef 15), (VRef 17), (VRef 24), (VRef 20).
  repeat split; vm_compute; reflexivity.
Qed.


(** X20. The identity observer invalidates the very cache the permission
    verifier reads: there is one identity cache, it is the one handed to
    the permission verifier, and the observer's [to_update] and [forked]
    callbacks are that cache's [invalidate] and [forked]; the cache goes
    nowhere else. Cache and verifier both read the chain head state root
    off the block store. The one verifier is handed to the block publisher
    and to the block validator the validator keeps, as
    [permission_verifier], and to no other constructor; the only calls
    that receive it are the two handler registrations. *)
Theorem identity_cache_wiring (a : init_args) (e : init_env) :
  caller_owned a ->
  let w := wired a e in
  exists idc pv io bs bp bv,
    instances w IdentityCache = [VRef idc] /\
    instances w PermissionVerifier = [VRef pv] /\
    instances w IdentityObserver = [io] /\
    instances w BlockStore = [bs] /\
    field w self_ref "_block_publisher" = Some bp /\
    field w self_ref "_block_validator" = Some bv /\
    instances w BlockPublisher = [bp] /\
    instances w BlockValidator = [bv] /\
    ctor_args w (VRef pv)
      = [Pos (permissions a); Pos (VAttr bs "chain_head_state_root"); Pos (VRef idc)] /\
    (exists ivf, ctor_args w (VRef idc)
                   = [Pos ivf; Pos (VAttr bs "chain_head_state_root")]
                 /\ class_of w ivf = Some IdentityViewFactory) /\
    ctor_args w io
      = [Kw "to_update" (VAttr (VRef idc) "invalidate");
         Kw "forked" (VAttr (VRef idc) "forked")] /\
    kwarg w bp "permission_verifier" = Some (VRef pv) /\
    kwarg w bv "permission_verifier" = Some (VRef pv) /\
    passed_as w "permission_verifier" = [VRef pv; VRef pv] /\
    handed_to w pv = [(bp, Kw "permission_verifier" (VRef pv));
                      (bv, Kw "permission_verifier" (VRef pv))] /\
    handed_to w idc = [(VRef pv, Pos (VRef idc));
                       (io, Kw "to_update" (VAttr (VRef idc) "invalidate"));
                       (io, Kw "forked" (VAttr (VRef idc) "forked"))] /\
    calls_with w idc = [] /\
    calls_with w pv
      = [VGlobal "network_handlers.add"; VGlobal "component_handlers.add"].
Proof.
  intros Ha w. subst w.
  apply caller_owned_inv in Ha as (? & ? & ? & ? & ?).
  exists 30, 31, (VRef 32), (VRef 8), (VRef 34), (VRef 35).
  do 9 (split; [vm_compute; reflexivity|]).
  split; [exists (VRef 29); split; vm_compute; reflexivity|].
  do 4 (split; [vm_compute; reflexivity|]).
  split; [run_handed_to a e|].
  split; [run_handed_to a e|].
  split; vm_compute; reflexivity.
Qed.

Lemma identity_cache_wiring_witness :
  caller_owned example_args /\
  exists bp bv,
    field example_world self_ref "_block_publisher" = Some bp /\
    field example_world self_ref "_block_validator" = Some bv /\
    handed_to example_world 31 = [(bp, Kw "permission_verifier" (VRef 31));
                                  (bv, Kw "permission_verifier" (VRef 31))].
Proof.
  assert (Ha : caller_owned example_args) by (repeat constructor).
  split; [exact Ha|].
  destruct (identity_cache_wiring example_args example_env Ha)
    as (idc & pv & io & bs & bp & bv & _ & Hpv & _ & _ & Hbp & Hbv & _ & _ &
        _ & _ & _ & _ & _ & _ & Hh & _).
  assert (Hpv' : instances (wired example_args example_env) PermissionVerifier
                 = [VRef 31]) by (vm_compute; reflexivity).
  rewrite Hpv' in Hpv. injection Hpv as <-.
  exists bp, bv. split; [exact Hbp|]. split; [exact Hbv|]. exact Hh.
Defined.

(** * The state root getter without a chain head *)

(** X10. While the chain controller has no chain head ([chain_head] is
    [None]), the getter raises [AttributeError] and changes nothing: there
    is no guard for a missing head. *)
Theorem get_chain_head_state_root_hash_without_head
    (w : world) (self cc : oid) :
  field w (VRef self) "_chain_controller" = Some (VRef cc) ->
  field w (VRef cc) "chain_head" = Some VNone ->
  Validator_get_chain_head_state_root_hash self w = (Raise "AttributeError", w).
Proof.
  intros Hcc Hh. unfold Validator_get_chain_head_state_root_hash.
  rewrite (bind_ret _ _ _ _ _ (getattr_field _ _ _ _ Hcc)).
  unfold getattr_v at 1.
  rewrite (bind_ret _ _ _ _ _ (getattr_field _ _ _ _ Hh)).
  reflexivity.
Qed.

Lemma get_chain_head_state_root_hash_without_head_witness :
  Validator_get_chain_head_state_root_hash 0 example_headless_world
  = (Raise "AttributeError", example_headless_world).
Proof.
  apply (get_chain_head_state_root_hash_without_head example_headless_world 0 36).
  - vm_compute. reflexivity.
  - vm_compute. reflexivity.
Defined.

(** * Waiting for SIGTERM *)

Lemma wait_for_signal_S (fuel : nat) (is_set : nat -> bool) (w : world) :
  wait_for_signal (S fuel) is_set w =
  if is_set (clock w) then (Ret tt, w)
  else wait_for_signal fuel is_set
         {| heap := heap w; next := next w;
            trace := trace w ++ [EWait 20]; clock := S (clock w) |}.
Proof.
  simpl. unfold mbind at 1, M_bind at 1, now.
  by destruct (is_set (clock w)).
Qed.

(** The world [k] timed-out waits later. *)
Lemma wait_for_signal_spec (fuel : nat) (is_set : nat -> bool) : forall w,
  exists k,
    (wait_for_signal fuel is_set w).2
      = {| heap := heap w; next := next w;
           trace := trace w ++ replicate k (EWait 20); clock := clock w + k |} /\
    (forall n, clock w <= n < clock w + k -> is_set n = false) /\
    (((wait_for_signal fuel is_set w).1 = Ret tt /\ is_set (clock w + k) = true) \/
     ((wait_for_signal fuel is_set w).1 = Starved /\ k = fuel)).
Proof.
  induction fuel as [|fuel IH]; intros w.
  - exists 0. simpl. rewrite app_nil_r, Nat.add_0_r.
    split; [by destruct w|]. split; [intros n Hn; lia|by right].
  - rewrite wait_for_signal_S.
    destruct (is_set (clock w)) eqn:Hset.
    + exists 0. simpl. rewrite app_nil_r, Nat.add_0_r.
      split; [by destruct w|]. split; [intros n Hn; lia|].
      left. split; [reflexivity|exact Hset].
    + match goal with |- context [wait_for_signal fuel is_set ?w1] =>
        destruct (IH w1) as (k & Hw & Hunset & Hres) end.
      cbn [heap next trace clock] in Hw, Hunset, Hres.
      exists (S k). rewrite Hw. split.
      { f_equal; [|lia]. rewrite <- app_assoc. reflexivity. }
      split.
      { intros n Hn. destruct (decide (n = clock w)) as [->|Hne]; [done|].
        apply Hunset. lia. }
      destruct Hres as [[Hr Hs]|[Hr ->]].
      * left. split; [done|]. by replace (clock w + S k) with (S (clock w) + k) by lia.
      * by right.
Qed.

Lemma Validator__start_outcome (E : run_env) (fuel : nat) (self : oid)
    (w : world) (cs : components) :
  attached w self cs ->
  exists k,
    (Validator__start E fuel self w).2
      = {| heap := heap w; next := next w;
           trace := trace w ++ pipeline_start cs ++ [ESignal "SIGTERM"]
                      ++ replicate k (EWait 20);
           clock := clock w + k |} /\
    (forall n, clock w <= n < clock w + k -> sigterm_is_set E n = false) /\
    (((Validator__start E fuel self w).1 = Ret VNone
      /\ sigterm_is_set E (clock w + k) = true) \/
     ((Validator__start E fuel self w).1 = Starved /\ k = fuel)).
Proof.
  intros Hat.
  pose proof (Validator__start_runs E fuel self w [] cs Hat) as Heq.
  rewrite log_nil, app_nil_l in Heq. rewrite Heq. clear Heq.
  set (w1 := log w (pipeline_start cs ++ [ESignal "SIGTERM"])).
  destruct (wait_for_signal_spec fuel (sigterm_is_set E) w1) as (k & Hw & Hunset & Hres).
  exists k. unfold mbind, M_bind.
  destruct (wait_for_signal fuel (sigterm_is_set E) w1) as [[[]| |] w2];
    cbn [fst snd] in *; subst w2; subst w1; cbn [log heap next trace clock] in *.
  - split; [by rewrite <- !app_assoc|]. split; [done|].
    destruct Hres as [[_ Hs]|[Hr _]]; [by left|discriminate].
  - destruct Hres as [[Hr _]|[Hr _]]; discriminate.
  - split; [by rewrite <- !app_assoc|]. split; [done|].
    destruct Hres as [[Hr _]|[_ ->]]; [discriminate|by right].
Qed.

(** X11. [_start] returns only on SIGTERM: when it returns, it has started
    the five pipeline components once and in order, registered the
    handler, and then waited, 20 seconds at a time, through exactly the
    instants at which the signal was not yet set; the signal is set at the
    instant it returns, and the result is [None]. *)
Theorem start_returns_only_on_sigterm
    (E : run_env) (fuel : nat) (self : oid) (w w' : world)
    (cs : components) (v : value) :
  attached w self cs ->
  Validator__start E fuel self w = (Ret v, w') ->
  v = VNone /\
  sigterm_is_set E (clock w') = true /\
  (forall n, clock w <= n < clock w' -> sigterm_is_set E n = false) /\
  trace w' = trace w ++ pipeline_start cs ++ [ESignal "SIGTERM"]
               ++ replicate (clock w' - clock w) (EWait 20) /\
  heap w' = heap w.
Proof.
  intros Hat Hrun.
  destruct (Validator__start_outcome E fuel self w cs Hat) as (k & Hw & Hunset & Hres).
  rewrite Hrun in Hw, Hres. cbn [fst snd] in *. subst w'. cbn [heap trace clock].
  destruct Hres as [[Hr Hs]|[Hr _]]; [|discriminate].
  injection Hr as ->. replace (clock w + k - clock w) with k by lia. done.
Qed.

(** X12. [_start] does return once SIGTERM is delivered: if the signal is
    set [n] waits after the call, [_start] returns [None] after at most
    [n] waits. *)
Theorem start_returns_when_signalled
    (E : run_env) (fuel : nat) (self : oid) (w : world) (cs : components) (n : nat) :
  attached w self cs ->
  sigterm_is_set E (clock w + n) = true ->
  n < fuel ->
  exists w', Validator__start E fuel self w = (Ret VNone, w') /\
             clock w' <= clock w + n.
Proof.
  intros Hat Hset Hfuel.
  destruct (Validator__start_outcome E fuel self w cs Hat) as (k & Hw & Hunset & Hres).
  destruct (Validator__start E fuel self w) as [r w'] eqn:Hrun.
  cbn [fst snd] in *. subst w'.
  assert (Hk : k <= n).
  { destruct (le_lt_dec k n) as [|Hlt]; [done|].
    rewrite Hunset in Hset by lia. discriminate. }
  destruct Hres as [[-> _]|[_ ->]]; [|lia].
  eexists. split; [reflexivity|]. simpl. lia.
Qed.

(** X13. Without SIGTERM [_start] never returns: however long it is left
    running, it is still in its loop, having waited once per round. *)
Theorem start_blocks_without_sigterm
    (E : run_env) (fuel : nat) (self : oid) (w : world) (cs : components) :
  attached w self cs ->
  (forall n, clock w <= n -> sigterm_is_set E n = false) ->
  (Validator__start E fuel self w).1 = Starved /\
  trace (Validator__start E fuel self w).2
    = trace w ++ pipeline_start cs ++ [ESignal "SIGTERM"]
        ++ replicate fuel (EWait 20).
Proof.
  intros Hat Hnever.
  destruct (Validator__start_outcome E fuel self w cs Hat) as (k & Hw & Hunset & Hres).
  rewrite Hw. cbn [trace].
  destruct Hres as [[_ Hs]|[Hr ->]]; [|done].
  rewrite Hnever in Hs by lia. discriminate.
Qed.

(** * More about [stop] *)

Lemma polite_nil allowed : polite allowed [].
Proof. intros i t H. by rewrite lookup_nil in H. Qed.

Lemma polite_app allowed e1 e2 :
  polite allowed e1 -> polite allowed e2 -> polite allowed (e1 ++ e2).
Proof.
  intros H1 H2 i t H. apply lookup_app_Some in H as [H|[Hle H]].
  - destruct (H1 i t H) as (Hin & j & -> & Hj). split; [done|].
    exists j. split; [done|]. by apply lookup_app_l_Some.
  - destruct (H2 _ t H) as (Hin & j & Hij & Hj). split; [done|].
    exists (length e1 + j). split; [lia|].
    rewrite lookup_app_r by lia. by replace (length e1 + j - length e1) with j by lia.
Qed.

Lemma polite_mono a1 a2 evs :
  (forall t, t ∈ a1 -> t ∈ a2) -> polite a1 evs -> polite a2 evs.
Proof. intros Hsub H i t Hi. destruct (H i t Hi) as [Hin Hj]. auto. Qed.

Lemma polite_quiet allowed evs :
  (forall t, EJoin t ∉ evs) -> polite allowed evs.
Proof. intros Hq i t H. destruct (Hq t). by eapply list_elem_of_lookup_2. Qed.

Lemma polite_join t : polite [t] [EIsAlive t false; EJoin t].
Proof.
  intros i u H. destruct i as [|[|i]]; simpl in H; try discriminate.
  injection H as <-. split; [apply list_elem_of_here|]. by exists 0.
Qed.

Lemma trace_after_sleep threads w :
  trace (after_sleep threads w)
  = trace w ++ match threads with [] => [] | _ => [ESleep 1] end.
Proof. destruct threads; simpl; [by rewrite app_nil_r|done]. Qed.

Lemma polite_sleep allowed (threads : list nat) :
  polite allowed (match threads with [] => [] | _ => [ESleep 1] end).
Proof.
  apply polite_quiet. intros t H. destruct threads.
  - by apply elem_of_nil in H.
  - apply list_elem_of_singleton in H. discriminate.
Qed.

Lemma join_dead_polite T copy : forall threads w,
  exists evs,
    trace (join_dead T copy threads w).2 = trace w ++ evs /\ polite copy evs.
Proof.
  induction copy as [|t rest IH]; intros threads w.
  - exists []. simpl. rewrite app_nil_r. split; [done|apply polite_nil].
  - assert (Hrest : forall evs, polite rest evs -> polite (t :: rest) evs).
    { intros evs. apply polite_mono. intros u Hu. by apply list_elem_of_further. }
    rewrite join_dead_cons. destruct (is_alive T (clock w) t).
    + destruct (IH threads (after_sleep threads (log w [EIsAlive t true])))
        as (evs & Htr & Hp).
      rewrite Htr, trace_after_sleep. cbn [log trace].
      eexists. split; [by rewrite <- !app_assoc|].
      apply polite_app; [|apply polite_app; [apply polite_sleep|by apply Hrest]].
      apply polite_quiet. intros u H. apply list_elem_of_singleton in H. discriminate.
    + assert (Hj : polite (t :: rest) [EIsAlive t false; EJoin t]).
      { eapply polite_mono; [|apply polite_join].
        intros u Hu. apply list_elem_of_singleton in Hu as ->. apply list_elem_of_here. }
      destruct (list_remove t threads) as [th1|].
      * destruct (IH th1 (after_sleep th1 (log w [EIsAlive t false; EJoin t])))
          as (evs & Htr & Hp).
        rewrite Htr, trace_after_sleep. cbn [log trace].
        eexists. split; [by rewrite <- !app_assoc|].
        apply polite_app; [done|apply polite_app; [apply polite_sleep|by apply Hrest]].
      * eexists. split; [reflexivity|done].
Qed.

Lemma join_all_polite T fuel : forall threads w,
  exists evs,
    trace (join_all fuel T threads w).2 = trace w ++ evs /\ polite threads evs.
Proof.
  induction fuel as [|fuel IH]; intros threads w.
  - exists []. rewrite app_nil_r. split; [by destruct threads|apply polite_nil].
  - destruct threads as [|t0 threads0].
    { exists []. rewrite app_nil_r. split; [done|apply polite_nil]. }
    cbn [join_all]. set (threads := t0 :: threads0).
    set (m := if length threads <? 4
              then info "remaining threads: %s" [VStr (remaining_threads T threads)]
              else mret tt).
    assert (Hm : exists l, m w = (Ret tt, log w l) /\ polite threads l).
    { subst m. destruct (length threads <? 4).
      - eexists. split; [apply emit_log|]. apply polite_quiet.
        intros u H. apply list_elem_of_singleton in H. discriminate.
      - exists []. rewrite log_nil. split; [done|apply polite_nil]. }
    destruct Hm as (l & Hm & Hl). rewrite (bind_ret _ _ _ _ _ Hm).
    destruct (join_dead_polite T threads threads (log w l)) as (evs2 & Htr2 & Hp2).
    unfold mbind, M_bind.
    destruct (join_dead T threads threads (log w l)) as [[threads'| |] w2] eqn:Hjd;
      cbn [snd] in Htr2.
    + destruct (IH threads' w2) as (evs3 & Htr3 & Hp3).
      apply join_dead_spec in Hjd as (_ & _ & _ & _ & _ & Hsub).
      exists (l ++ evs2 ++ evs3). split.
      * rewrite Htr3, Htr2. cbn [log trace]. by rewrite <- !app_assoc.
      * apply polite_app; [done|apply polite_app; [done|]].
        by apply (polite_mono threads').
    + exists (l ++ evs2). cbn [snd]. split.
      * rewrite Htr2. cbn [log trace]. by rewrite <- !app_assoc.
      * by apply polite_app.
    + exists (l ++ evs2). cbn [snd]. split.
      * rewrite Htr2. cbn [log trace]. by rewrite <- !app_assoc.
      * by apply polite_app.
Qed.

Lemma bind_raise {A B} (m : M A) (f : A -> M B) w e w1 :
  m w = (Raise e, w1) -> (m ≫= f) w = (Raise e, w1).
Proof. intros H. unfold mbind, M_bind. by rewrite H. Qed.

Lemma bind_starved {A B} (m : M A) (f : A -> M B) w w1 :
  m w = (Starved, w1) -> (m ≫= f) w = (Starved, w1).
Proof. intros H. unfold mbind, M_bind. by rewrite H. Qed.

Lemma remove_thread_cases (x : nat) (l : list nat) (w : world) :
  (exists l', list_remove x l = Some l' /\ remove_thread x l w = (Ret l', w)) \/
  (list_remove x l = None /\ remove_thread x l w = (Raise "ValueError", w)).
Proof.
  unfold remove_thread. destruct (list_remove x l) as [l'|]; [left; by exists l'|by right].
Qed.

(** X16. [stop] never blocks in [join()] and never joins its own thread:
    whatever the outcome, every [join()] it makes is on an enumerated
    thread, comes right after that thread answered [is_alive()] with
    False, and is not on the calling thread. *)
Theorem stop_joins_politely
    (T : thread_env) (fuel : nat) (self : oid) (w : world) (cs : components) :
  attached w self cs ->
  exists evs,
    trace (Validator_stop T fuel self w).2
      = trace w ++ shutdown_sequence cs ++ [EEnumerate (enumerate T)] ++ evs /\
    polite (enumerate T) evs /\
    (NoDup (enumerate T) -> forall i, evs !! i <> Some (EJoin (current_thread T))).
Proof.
  intros Hat. rewrite (Validator_stop_runs _ _ _ _ _ Hat).
  remember (log w (shutdown_sequence cs ++ [EEnumerate (enumerate T)])) as w1 eqn:Hw1.
  assert (Htw : trace w1 = trace w ++ shutdown_sequence cs ++ [EEnumerate (enumerate T)])
    by (by rewrite Hw1).
  clear Hw1.
  assert (Hgoal : exists evs,
    trace ((threads ← remove_thread (current_thread T) (enumerate T);
            join_all fuel T threads;;
            info "All threads have been stopped and joined" []) w1).2
      = trace w1 ++ evs /\
    polite (enumerate T) evs /\
    (NoDup (enumerate T) -> forall i, evs !! i <> Some (EJoin (current_thread T)))).
  2:{ destruct Hgoal as (evs & Htr & Hp). exists evs. rewrite Htr, Htw.
      split; [by rewrite <- !app_assoc|done]. }
  destruct (remove_thread_cases (current_thread T) (enumerate T) w1)
    as [(l & Hl & Hrm)|[Hl Hrm]].
  2:{ rewrite (bind_raise _ _ _ _ _ Hrm). exists []. cbn [snd]. rewrite app_nil_r.
      split; [done|]. split; [apply polite_nil|]. intros _ i. by rewrite lookup_nil. }
  rewrite (bind_ret _ _ _ _ _ Hrm).
  destruct (join_all_polite T fuel l w1) as (evs & Htr & Hp).
  assert (Hfin : exists evs',
    trace ((join_all fuel T l;;
            info "All threads have been stopped and joined" []) w1).2
      = trace w1 ++ evs' /\ polite l evs').
  { destruct (join_all fuel T l w1) as [[[]| |] w2] eqn:Hja; cbn [snd] in Htr.
    - rewrite (bind_ret _ _ _ _ _ Hja). unfold info. rewrite emit_log.
      exists (evs ++ [ELog "info" "All threads have been stopped and joined" []]).
      cbn [snd log trace]. rewrite Htr.
      split; [by rewrite <- app_assoc|]. apply polite_app; [done|].
      apply polite_quiet. intros u H. apply list_elem_of_singleton in H. discriminate.
    - rewrite (bind_raise _ _ _ _ _ Hja). by exists evs.
    - rewrite (bind_starved _ _ _ _ Hja). by exists evs. }
  destruct Hfin as (evs' & Htr' & Hp').
  exists evs'. split; [done|]. split.
  - eapply polite_mono; [|exact Hp']. exact (list_remove_sub _ _ _ Hl).
  - intros Hnd i Hi. destruct (Hp' i _ Hi) as [Hin _].
    by destruct (list_remove_nodup _ _ _ Hnd Hl) as [_ Hcur].
Qed.

(** X15. With no thread besides the caller, [stop] returns right after the
    shutdown calls: it checks no thread, joins nothing and does not sleep,
    and logs that all threads have been stopped and joined. *)
Theorem stop_without_other_threads
    (T : thread_env) (fuel : nat) (self : oid) (w : world) (cs : components) :
  attached w self cs ->
  enumerate T = [current_thread T] ->
  Validator_stop T fuel self w
  = (Ret tt,
     log w (shutdown_sequence cs
            ++ [EEnumerate [current_thread T];
                ELog "info" "All threads have been stopped and joined" []])).
Proof.
  intros Hat Hen. rewrite (Validator_stop_runs _ _ _ _ _ Hat). rewrite Hen.
  unfold remove_thread. simpl list_remove. rewrite Nat.eqb_refl.
  unfold mbind at 1, M_bind at 1. unfold mret at 1, M_ret at 1.
  assert (Hj : forall w1, join_all fuel T [] w1 = (Ret tt, w1)) by (by destruct fuel).
  rewrite (bind_ret _ _ _ _ _ (Hj _)). unfold info. rewrite emit_log, log_log.
  by rewrite <- app_assoc.
Qed.

Lemma join_all_stuck T (t : nat) fuel : forall threads w,
  NoDup threads -> t ∈ threads ->
  (forall n, is_alive T n t = true) ->
  (join_all fuel T threads w).1 = Starved.
Proof.
  induction fuel as [|fuel IH]; intros threads w Hnd Hin Halive.
  - destruct threads; [by apply elem_of_nil in Hin|done].
  - destruct threads as [|t0 threads0]; [by apply elem_of_nil in Hin|].
    cbn [join_all]. set (threads := t0 :: threads0) in *.
    set (m := if length threads <? 4
              then info "remaining threads: %s" [VStr (remaining_threads T threads)]
              else mret tt).
    assert (Hm : exists w1, m w = (Ret tt, w1)).
    { subst m. destruct (length threads <? 4); by eexists. }
    destruct Hm as [w1 Hm]. rewrite (bind_ret _ _ _ _ _ Hm).
    destruct (join_dead_total T threads threads w1 Hnd Hnd)
      as (th' & w2 & Hrun & Hnd' & _); [done|].
    rewrite (bind_ret _ _ _ _ _ Hrun). apply IH; [done| |done].
    apply join_dead_spec in Hrun as (evs & _ & _ & _ & Hkeep & _).
    destruct (Hkeep t Hin) as [|(_ & n & _ & Hdead)]; [done|].
    rewrite Halive in Hdead. discriminate.
Qed.

(** X17. [stop] does not return while another thread lives: if some
    enumerated thread other than the caller never finishes, [stop] is
    still in its loop after any number of rounds, without an exception. *)
Theorem stop_hangs_on_immortal_thread
    (T : thread_env) (fuel : nat) (self : oid) (w : world) (cs : components)
    (t : nat) :
  attached w self cs ->
  NoDup (enumerate T) ->
  current_thread T ∈ enumerate T ->
  t ∈ enumerate T -> t <> current_thread T ->
  (forall n, is_alive T n t = true) ->
  (Validator_stop T fuel self w).1 = Starved.
Proof.
  intros Hat Hnd Hcur Ht Hne Halive.
  rewrite (Validator_stop_runs _ _ _ _ _ Hat).
  destruct (list_remove_in _ _ Hcur) as [l Hl].
  unfold remove_thread. rewrite Hl.
  unfold mbind at 1, M_bind at 1. unfold mret at 1, M_ret at 1.
  destruct (list_remove_nodup _ _ _ Hnd Hl) as [Hndl _].
  assert (Htl : t ∈ l).
  { destruct (list_remove_elem _ _ _ Hl t Ht); done. }
  pose proof (join_all_stuck T t fuel l
                (log w (shutdown_sequence cs ++ [EEnumerate (enumerate T)]))
                Hndl Htl Halive) as Hs.
  unfold mbind, M_bind.
  destruct (join_all fuel T l _) as [[[]| |] w2]; cbn [fst] in Hs; try discriminate.
  reflexivity.
Qed.

(** * The extras at work *)

Lemma start_returns_only_on_sigterm_witness :
  Validator__start example_run_env 5 0 example_world
    = (Ret VNone, example_signalled_world) /\
  sigterm_is_set example_run_env (clock example_signalled_world) = true /\
  (forall n, clock example_world <= n < clock example_signalled_world ->
             sigterm_is_set example_run_env n = false).
Proof.
  assert (Hat : attached example_world 0 wired_components)
    by (repeat split; vm_compute; reflexivity).
  assert (Hrun : Validator__start example_run_env 5 0 example_world
                 = (Ret VNone, example_signalled_world))
    by (vm_compute; reflexivity).
  pose proof (start_returns_only_on_sigterm example_run_env 5 0 example_world
                example_signalled_world wired_components VNone Hat Hrun)
    as (_ & Hset & Hunset & _).
  split; [exact Hrun|]. split; [exact Hset|exact Hunset].
Defined.

Lemma start_returns_when_signalled_witness :
  exists w',
    Validator__start example_run_env 3 0 example_world = (Ret VNone, w') /\
    clock w' <= clock example_world + 2.
Proof.
  apply (start_returns_when_signalled example_run_env 3 0 example_world
           wired_components 2).
  - repeat split; vm_compute; reflexivity.
  - vm_compute. reflexivity.
  - lia.
Defined.

Lemma start_blocks_without_sigterm_witness :
  (Validator__start example_unsignalled 7 0 example_world).1 = Starved /\
  trace (Validator__start example_unsignalled 7 0 example_world).2
    = trace example_world ++ pipeline_start wired_components
        ++ [ESignal "SIGTERM"] ++ replicate 7 (EWait 20).
Proof.
  apply (start_blocks_without_sigterm example_unsignalled 7 0 example_world
           wired_components).
  - repeat split; vm_compute; reflexivity.
  - reflexivity.
Defined.

Lemma Validator_stop_returns_witness :
  exists w', Validator_stop example_threads 5 0 example_world = (Ret tt, w').
Proof.
  apply (Validator_stop_returns example_threads 4 5 example_world 0 wired_components).
  - repeat split; vm_compute; reflexivity.
  - apply (bool_decide_unpack _). vm_compute. exact I.
  - apply list_elem_of_here.
  - intros n t Hn Ht Hne. cbn [is_alive example_threads].
    apply Nat.ltb_ge. cbn [enumerate example_threads] in Ht.
    rewrite !elem_of_cons, elem_of_nil in Ht. lia.
  - vm_compute. lia.
Defined.

Lemma stop_without_other_threads_witness :
  (Validator_stop example_lonely 0 0 example_world).1 = Ret tt.
Proof.
  rewrite (stop_without_other_threads example_lonely 0 0 example_world
             wired_components).
  - reflexivity.
  - repeat split; vm_compute; reflexivity.
  - reflexivity.
Defined.

Lemma stop_joins_politely_witness :
  exists evs,
    trace (Validator_stop example_threads 10 0 example_world).2
      = trace example_world ++ shutdown_sequence wired_components
          ++ [EEnumerate (enumerate example_threads)] ++ evs /\
    polite (enumerate example_threads) evs /\
    (NoDup (enumerate example_threads) ->
     forall i, evs !! i <> Some (EJoin (current_thread example_threads))).
Proof.
  apply (stop_joins_politely example_threads 10 0 example_world wired_components).
  repeat split; vm_compute; reflexivity.
Defined.

Lemma stop_hangs_on_immortal_thread_witness :
  (Validator_stop example_stuck 50 0 example_world).1 = Starved.
Proof.
  apply (stop_hangs_on_immortal_thread example_stuck 50 0 example_world
           wired_components 1).
  - repeat split; vm_compute; reflexivity.
  - apply (bool_decide_unpack _). vm_compute. exact I.
  - apply list_elem_of_here.
  - apply list_elem_of_further, list_elem_of_here.
  - discriminate.
  - reflexivity.
Defined.

Lemma last2_is_suffix_witness : last2 "0" = "0" /\ last2 "tcp://127.0.0.1:8800" = "00".
Proof.
  split.
  - apply (last2_is_suffix "0"). simpl. lia.
  - reflexivity.
Defined.
